(** * Conway's Game of Life on a canvas (game-of-life.js)

    A shallow embedding of the simulation engine of [game-of-life.js]: the
    two grid variables and the arrays they refer to, the neighbour counter,
    the cell rule, the update cycle with its population monitor, the reseed
    and the frame callback.

    Modelling decisions, each taken from the source:
    - [grid] and [tempGrid] are global variables holding REFERENCES to
      JavaScript arrays.  The store maps a location to the outer array; the
      inner arrays are kept inline in it.  This loses nothing: an inner array
      is created by [initArray] for one outer array and never moved to
      another, so two of them are the same object exactly when their outer
      arrays are.
    - JavaScript numbers are taken as exact rationals.  The quotients
      [width / size] and [height / size] divide an integer by 4 and are exact
      in binary floating point, as are the loop tests on them; the one
      rounded operation, [cnt / (...) < 0.10], gives the exact answer on
      every canvas below ten million pixels a side.  A quotient by zero is
      NaN or an infinity, for which [<] is false, and is modelled as [None].
    - Frame timestamps are the exception: [requestAnimationFrame] passes a
      double with a fraction, and [timestamp - startTime] is a rounded
      subtraction whose result decides whether the grid steps.  Timestamps
      are binary64 numbers ([float]) and the subtraction and the comparison
      are the IEEE 754 operations, so that every number a browser can pass,
      NaN and the infinities included, is a timestamp of the model.
    - [Math.random() > 0.5] is an oracle: the outcome of the n-th call.
    - the canvas, the page and the frame scheduler are a trace of events.
    - [update] and [populateGrid] call each other without a bound in the
      source; the model takes fuel for that recursion.  The [for] loops are
      bounded by their tests. *)

From Stdlib Require Import ZArith QArith Qround List Bool Lia String Floats.
From stdpp Require Import base option list gmap.

Local Open Scope Z_scope.

(** ** JavaScript values and arrays

    [grid[x]] is the array of the cells with abscissa [x], a column of the
    picture. What the program stores decides the types: a column holds
    numbers (the literals [0] and [1] and values read from a column), and a
    read past either end of it gives [undefined]; an outer array holds
    columns, and [undefined] where it has no element. *)

Inductive cell : Type :=
| VUndef
| VNum (n : Z).

Abbreviation column := (list cell).

(** An outer array; [None] is a hole, which reads as [undefined]. *)
Abbreviation array2 := (list (option (list cell))).

(** [if (v)]: [undefined] and [0] are falsy. *)
Definition truthy (v : cell) : bool :=
  match v with
  | VUndef => false
  | VNum n => negb (n =? 0)
  end.

(** [v == 0]. *)
Definition loose_eq_zero (v : cell) : bool :=
  match v with
  | VUndef => false
  | VNum n => n =? 0
  end.

(** Outcome of an expression or statement. *)
Inductive res (A : Type) : Type :=
| Ok (a : A)
| Throw          (* an uncaught TypeError *)
| NoFuel.        (* the bound of the model on a recursion is used up *)
Arguments Ok {A} a.
Arguments Throw {A}.
Arguments NoFuel {A}.

#[global] Instance res_bind : MBind res := fun A B k m =>
  match m with
  | Ok a => k a
  | Throw => Throw
  | NoFuel => NoFuel
  end.
#[global] Instance res_ret : MRet res := fun A a => Ok a.

(** Element [i] of a list for an integer index. A list stands for an array
    that has its elements and no other property, as every array of this
    program is: its writes are at loop indices, which start at 0. For such
    an array a negative index names a property it does not have. *)
Definition lookupZ {A} (i : Z) (l : list A) : option A :=
  if i <? 0 then None else l !! Z.to_nat i.

(** [l[i] = v] on the elements of an array, for [0 <= i]: inside the array
    the slot is replaced; at or past its end the array grows, the slots in
    between being holes. For [i < 0] JavaScript adds a property named [i]
    to the object, which later reads of [l[i]] return; a list has no place
    for it, so that case is outside the model: the program has no such
    write, and the statements about writes below take [0 <= i]. *)
Definition list_set {A} (hole : A) (l : list A) (i : Z) (v : A) : list A :=
  if i <? 0 then l
  else if i <? Z.of_nat (length l) then <[Z.to_nat i := v]> l
  else l ++ replicate (Z.to_nat i - length l) hole ++ [v].

(** The value of [a[x]]: a column, or [None] for [undefined]. *)
Definition column_at (a : array2) (x : Z) : option column := mjoin (lookupZ x a).

(** [a[x][y]] as an expression: reading a property of [undefined] raises a
    TypeError. *)
Definition get2 (a : array2) (x y : Z) : res cell :=
  match column_at a x with
  | None => Throw
  | Some r => Ok (default VUndef (lookupZ y r))
  end.

(** [a[x][y] = v] as a statement. The column object is changed in place, so
    the outer array sees the new column. *)
Definition set2 (a : array2) (x y : Z) (v : cell) : res array2 :=
  match column_at a x with
  | None => Throw
  | Some r => Ok (list_set None a x (Some (list_set VUndef r y v)))
  end.

(** ** Numbers *)

Definition size : Z := 4.
Definition stepInMs : float := 500%float.

(** [a / b]: [None] stands for NaN and the infinities. *)
Definition js_div (a b : Q) : option Q :=
  if Qeq_bool b 0 then None else Some (a / b)%Q.

(** [a < c] where [a] may be NaN or infinite (never minus infinity here:
    the numerators of the program are counts). *)
Definition js_lt (a : option Q) (c : Q) : bool :=
  match a with
  | Some q => negb (Qle_bool c q)
  | None => false
  end.

Definition Qlt_bool (a b : Q) : bool := negb (Qle_bool b a).

(** ** Loops

    [for (let x = 0; x < bound; x++) body]. The recursion is on a number of
    rounds that the test [x < bound] never lets the loop use up (lemma
    [for_lt_fold]); the test is what ends the loop, as in the source. *)

Fixpoint for_from {S} (rounds : nat) (x : Z) (bound : Q)
    (body : Z -> S -> res S) (s : S) : res S :=
  if Qlt_bool (inject_Z x) bound then
    match rounds with
    | O => NoFuel
    | Datatypes.S n => s' ← body x s; for_from n (x + 1) bound body s'
    end
  else Ok s.

Definition for_lt {S} (bound : Q) (body : Z -> S -> res S) (s : S) : res S :=
  for_from (Z.to_nat (Qceiling bound)) 0 bound body s.

(** ** The store, the globals and the outside world *)

Abbreviation loc := positive.

(** [fillStyle] values the program uses. *)
Inductive style : Type :=
| Black
| Rgb (r g b : Z).

(** A number shown on the page: the counter of steps, or a time in
    milliseconds. *)
Inductive shown : Type :=
| Count (n : Z)
| Millis (t : float).

Inductive event : Type :=
| ClearRect (x y w h : Z)                (* canvasContext.clearRect *)
| FillRect (c : style) (x y w h : Z)     (* fillStyle = c; fillRect *)
| SetInnerHTML (id : string) (v : shown) (* getElementById(id).innerHTML = v *)
| RequestAnimationFrame.                 (* requestAnimationFrame(start) *)

Record state : Type := State {
  heap : gmap loc array2;      (* the outer arrays that exist *)
  grid : loc;                  (* let grid *)
  tempGrid : loc;              (* let tempGrid *)
  startTime : option float;    (* var startTime; None is null *)
  drawCount : Z;               (* var drawCount *)
  randoms : nat;               (* calls of Math.random() so far *)
  trace : list event           (* newest event first *)
}.

Definition set_heap (h : gmap loc array2) (st : state) : state :=
  State h (grid st) (tempGrid st) (startTime st) (drawCount st) (randoms st) (trace st).
Definition set_grid (l : loc) (st : state) : state :=
  State (heap st) l (tempGrid st) (startTime st) (drawCount st) (randoms st) (trace st).
Definition set_tempGrid (l : loc) (st : state) : state :=
  State (heap st) (grid st) l (startTime st) (drawCount st) (randoms st) (trace st).
Definition set_startTime (t : option float) (st : state) : state :=
  State (heap st) (grid st) (tempGrid st) t (drawCount st) (randoms st) (trace st).
Definition set_drawCount (n : Z) (st : state) : state :=
  State (heap st) (grid st) (tempGrid st) (startTime st) n (randoms st) (trace st).
Definition set_randoms (n : nat) (st : state) : state :=
  State (heap st) (grid st) (tempGrid st) (startTime st) (drawCount st) n (trace st).
Definition emit (e : event) (st : state) : state :=
  State (heap st) (grid st) (tempGrid st) (startTime st) (drawCount st) (randoms st)
        (e :: trace st).

(** The array a variable refers to. Every variable of the program refers to
    an array that exists (invariant [refs_ok] below). *)
Definition deref (h : gmap loc array2) (l : loc) : array2 := default [] (h !! l).

(** A new array object: a location the store does not have yet. *)
Definition alloc (a : array2) (h : gmap loc array2) : loc * gmap loc array2 :=
  let l := fresh (dom h) in (l, <[l := a]> h).

(** The script's top level, before [populateGrid()]: [let grid = [];
    let tempGrid = [];] are two empty arrays. *)
Definition initial : state :=
  State (<[2%positive := []]> (<[1%positive := []]> ∅)) 1%positive 2%positive None 0 0 [].

Section Game.

(** [const width = canvas.width; const height = canvas.height]: the canvas
    keeps its dimensions as unsigned integers. *)
Variables width height : Z.

(** The outcome of the n-th evaluation of [Math.random() > 0.5]. *)
Variable random_gt_half : nat -> bool.

Definition qwidth : Q := (inject_Z width / inject_Z size)%Q.     (* width / size *)
Definition qheight : Q := (inject_Z height / inject_Z size)%Q.   (* height / size *)

(** *** Functions for game rules

    [cellValue], [countNeighbours] and [updateCell] read the global [grid]
    and change nothing; their argument [g] is the array [grid] refers to
    when they are called. *)

Definition cellValue (g : array2) (x y : Z) : cell :=
  match get2 g x y with
  | Ok v => v
  | _ => VNum 0          (* catch { return 0; } *)
  end.

Definition countNeighbours (g : array2) (x y : Z) : Z :=
  let count := 0 in
  let count := if truthy (cellValue g (x - 1) (y - 1)) then count + 1 else count in
  let count := if truthy (cellValue g (x - 1) y) then count + 1 else count in
  let count := if truthy (cellValue g (x - 1) (y + 1)) then count + 1 else count in
  let count := if truthy (cellValue g x (y - 1)) then count + 1 else count in
  let count := if truthy (cellValue g x (y + 1)) then count + 1 else count in
  let count := if truthy (cellValue g (x + 1) (y - 1)) then count + 1 else count in
  let count := if truthy (cellValue g (x + 1) y) then count + 1 else count in
  let count := if truthy (cellValue g (x + 1) (y + 1)) then count + 1 else count in
  count.

(** [neighbours] is an undeclared (global) variable in the source, written
    here and read nowhere else. *)
Definition updateCell (g : array2) (x y : Z) : res cell :=
  let neighbours := countNeighbours g x y in
  if (neighbours >? 3) || (neighbours <? 2) then Ok (VNum 0)
  else
    c ← get2 g x y;
    if loose_eq_zero c && (neighbours =? 3) then Ok (VNum 1)
    else get2 g x y.

(** [tempGrid[x][y] = updateCell(x, y)] *)
Definition update_cell_at (x y : Z) (st : state) : res state :=
  v ← updateCell (deref (heap st) (grid st)) x y;
  t ← set2 (deref (heap st) (tempGrid st)) x y v;
  Ok (set_heap (<[tempGrid st := t]> (heap st)) st).

(** The two loops of [update] (lines 87-91) ... *)
Definition update_cells (st : state) : res state :=
  for_lt qwidth (fun x => for_lt qheight (fun y => update_cell_at x y)) st.

(** ... and [grid = tempGrid] after them (line 94): one step of the grid. *)
Definition step (st : state) : res state :=
  st ← update_cells st;
  Ok (set_grid (tempGrid st) st).

(** [draw(x, y, context, size)] *)
Definition draw (x y : Z) (context : style) (size : Z) (st : state) : state :=
  emit (FillRect context x y size size) st.

Definition drawCells (st : state) : res (Z * state) :=
  let cnt := 0 in
  for_lt qwidth (fun x =>
    for_lt qheight (fun y '(cnt, st) =>
      c ← get2 (deref (heap st) (grid st)) x y;
      if truthy c then
        Ok (cnt + 1, draw (x * size) (y * size) (Rgb x y 100) size st)
      else Ok (cnt, st)))
    (cnt, st).

(** [initArray(w, h)] *)
Definition initArray (w h : Q) : res array2 :=
  let arr := [] in
  for_lt w (fun x arr =>
    let arr := list_set None arr x (Some []) in
    for_lt h (fun y arr => set2 arr x y (VNum 0)) arr)
    arr.

(** The part of [populateGrid] before its call of [update]. *)
Definition seed (st : state) : res state :=
  g ← initArray qwidth qheight;
  let '(l, h) := alloc g (heap st) in
  let st := set_grid l (set_heap h st) in
  t ← initArray qwidth qheight;
  let '(l, h) := alloc t (heap st) in
  let st := set_tempGrid l (set_heap h st) in
  for_lt qwidth (fun x =>
    for_lt qheight (fun y st =>
      let r := random_gt_half (randoms st) in
      let st := set_randoms (S (randoms st)) st in
      if r then
        g ← set2 (deref (heap st) (grid st)) x y (VNum 1);
        Ok (set_heap (<[grid st := g]> (heap st)) st)
      else Ok st))
    st.

(** [update()] and, through it, [populateGrid()]. One unit of fuel is one
    call of [update]. *)
Fixpoint update (fuel : nat) (st : state) : res state :=
  match fuel with
  | O => NoFuel
  | S fuel =>
    let st := emit (ClearRect 0 0 width height) st in
    let st := draw 0 0 Black width st in
    st ← step st;
    '(cnt, st) ← drawCells st;
    if js_lt (js_div (inject_Z cnt) (qwidth * qheight)) (1 # 10) then
      st ← seed st;                 (* populateGrid(); *)
      update fuel st                (*   ... its last statement; return *)
    else Ok st
  end.

Definition populateGrid (fuel : nat) (st : state) : res state :=
  st ← seed st;
  update fuel st.

(** [start(timestamp)] *)
Definition start (fuel : nat) (timestamp : float) (st : state) : res state :=
  let st := match startTime st with
            | None => set_startTime (Some timestamp) st
            | Some _ => st
            end in
  let progress := PrimFloat.sub timestamp (default 0%float (startTime st)) in
  st ← (if PrimFloat.ltb stepInMs progress then     (* progress > stepInMs *)
          let st := set_drawCount (drawCount st + 1) st in
          let st := emit (SetInnerHTML "drawCount" (Count (drawCount st))) st in
          let st := emit (SetInnerHTML "timestamp" (Millis timestamp)) st in
          let st := emit (SetInnerHTML "progress" (Millis progress)) st in
          let st := set_startTime (Some timestamp) st in
          update fuel st
        else Ok st);
  Ok (emit RequestAnimationFrame st).

(** The script: [populateGrid(); requestAnimationFrame(start);] and then the
    frame callbacks, one per timestamp. *)
Definition boot (fuel : nat) : res state :=
  st ← populateGrid fuel initial;
  Ok (emit RequestAnimationFrame st).

Fixpoint frames (fuel : nat) (ts : list float) (st : state) : res state :=
  match ts with
  | [] => Ok st
  | t :: ts => st ← start fuel t st; frames fuel ts st
  end.


(** ** Reference notions the properties are stated with *)

(** The loop of [for_lt] over the list of its rounds. *)
Fixpoint for_list {S} (xs : list Z) (body : Z -> S -> res S) (s : S) : res S :=
  match xs with
  | [] => Ok s
  | x :: xs => s' ← body x s; for_list xs body s'
  end.

(** Number of columns and of rows the loops go through (lemma
    [for_lt_qwidth]): the quotients rounded UP. *)
Definition cols : Z := (width + size - 1) / size.
Definition rows : Z := (height + size - 1) / size.

(** What the specification takes them to be: the quotients rounded down. *)
Definition floor_cols : Z := width / size.
Definition floor_rows : Z := height / size.


(** A grid of the program's dimensions: [cols] columns of [rows] cells. *)
Definition rect (a : array2) : Prop :=
  length a = Z.to_nat cols /\
  forall o, o ∈ a -> exists c : column, o = Some c /\ length c = Z.to_nat rows.

(** Every cell is [0] or [1]. *)
Definition binary (a : array2) : Prop :=
  forall x y c, get2 a x y = Ok c -> 0 <= x < cols -> 0 <= y < rows ->
                c = VNum 0 \/ c = VNum 1.

(** The two predicates as tests. *)
Definition rectb (a : array2) : bool :=
  (length a =? Z.to_nat cols)%nat &&
  forallb (fun o => match o with
                    | Some c => (length c =? Z.to_nat rows)%nat
                    | None => false
                    end) a.

Definition binaryb (a : array2) : bool :=
  forallb (fun o => forallb (fun v => match v with
                                      | VNum 0 | VNum 1 => true
                                      | _ => false
                                      end) (default [] o)) a.

Definition in_grid (x y : Z) : bool :=
  (0 <=? x) && (x <? cols) && (0 <=? y) && (y <? rows).

(** The state of the cell at a coordinate, where a coordinate outside
    [0, cols) x [0, rows) is dead. *)
Definition alive (a : array2) (x y : Z) : Z :=
  if in_grid x y then
    match get2 a x y with
    | Ok (VNum n) => n
    | _ => 0
    end
  else 0.

(** What one call of [cellValue] adds to the count of [countNeighbours]. *)
Definition bit (g : array2) (x y : Z) : Z := if truthy (cellValue g x y) then 1 else 0.

(** The eight offsets, and the neighbour count as the specification words
    it: the sum of the states at the eight offset cells. *)
Definition offsets : list (Z * Z) :=
  filter (fun d => d <> (0, 0)) (list_prod [-1; 0; 1] [-1; 0; 1]).

Definition neighborCount (a : array2) (x y : Z) : Z :=
  foldr Z.add 0 ((fun d => alive a (x + d.1) (y + d.2)) <$> offsets).

(** The rule table of the four rules of the game. *)
Definition transition (s n : Z) : Z :=
  match s, n with
  | 1, 2 | 1, 3 => 1      (* a live cell with two or three live neighbours lives on *)
  | 0, 3 => 1             (* a dead cell with exactly three becomes live *)
  | _, _ => 0
  end.

(** One synchronous step as the specification words it: every cell of the
    next grid from the SAME current grid. *)
Definition spec_step (a : array2) : array2 :=
  (fun x => Some ((fun y => VNum (transition (alive a x y) (neighborCount a x y)))
                    <$> seqZ 0 rows)) <$> seqZ 0 cols.

(** The grid with every cell dead. *)
Definition zeros : array2 :=
  replicate (Z.to_nat cols) (Some (replicate (Z.to_nat rows) (VNum 0))).

(** Number of live cells of a grid. *)
Definition sumZ (l : list Z) : Z := foldr Z.add 0 l.

Definition cell_bit (v : cell) : Z := if truthy v then 1 else 0.

Definition column_live (o : option column) : Z := sumZ (cell_bit <$> default [] o).

Definition live (a : array2) : Z := sumZ (column_live <$> a).

(** Number of calls of [update], each of which clears the canvas once. *)
Definition is_clear (e : event) : bool :=
  match e with
  | ClearRect _ _ _ _ => true
  | _ => false
  end.

(** A list of events without [clearRect]. *)
Definition no_clear (es : list event) : Prop := List.filter is_clear es = [].

Definition cycles (st : state) : nat := length (List.filter is_clear (trace st)).

(** Events added to the trace, newest first. *)
Definition log (es : list event) (st : state) : state :=
  State (heap st) (grid st) (tempGrid st) (startTime st) (drawCount st) (randoms st)
        (es ++ trace st).

(** The value [update] stores for a cell. *)
Definition next_cell (g : array2) (x y : Z) : cell :=
  match updateCell g x y with
  | Ok v => v
  | _ => VUndef
  end.

(** The grid whose every cell is computed by [updateCell] from [g]. *)
Definition image (g : array2) : array2 :=
  (fun x => Some ((fun y => next_cell g x y) <$> seqZ 0 rows)) <$> seqZ 0 cols.

(** [n] steps of the grid, one after the other. *)
Fixpoint steps (n : nat) (st : state) : res state :=
  match n with
  | O => Ok st
  | S n => st ← step st; steps n st
  end.

(** The state in which [seed] runs its two loops, and a state they can
    produce: only the contents of the new [grid] and the count of random
    numbers change. *)
Definition seeded (st : state) (g : array2) (n : nat) : state :=
  let l1 := fresh (dom (heap st)) in
  let l2 := fresh (dom (<[l1 := zeros]> (heap st))) in
  State (<[l1 := g]> (<[l2 := zeros]> (<[l1 := zeros]> (heap st)))) l1 l2
        (startTime st) (drawCount st) n (trace st).

(** The test of the population monitor on a count of live cells. *)
Definition collapsed (cnt : Z) : bool :=
  js_lt (js_div (inject_Z cnt) (qwidth * qheight)) (1 # 10).

(** [update] up to and including [drawCells]: one step of the grid and the
    count of its live cells. *)
Definition cycle (st : state) : res (Z * state) :=
  let st := emit (ClearRect 0 0 width height) st in
  let st := draw 0 0 Black width st in
  st ← step st;
  drawCells st.

(** The events with which every call of [update] begins. *)
Definition prelude : list event :=
  [FillRect Black 0 0 width width; ClearRect 0 0 width height].

(** The state after a cycle, from the store [h1] the step leaves and the
    cells [tr] drawn. *)
Definition cycled (st : state) (h1 : gmap loc array2) (tr : list event) : state :=
  log tr (set_grid (tempGrid st) (set_heap h1 (log prelude st))).

(** The state in which [start] calls [update]: the counter raised, the
    three texts of the page set, the clock reset. *)
Definition stamped (timestamp progress : float) (st : state) : state :=
  set_startTime (Some timestamp)
    (log [SetInnerHTML "progress" (Millis progress);
          SetInnerHTML "timestamp" (Millis timestamp);
          SetInnerHTML "drawCount" (Count (drawCount st + 1))]
       (set_drawCount (drawCount st + 1) st)).

(** The test of [start] on a timestamp [t] when [startTime] is [t0]:
    [progress = t - t0] in binary64, then [progress > stepInMs]. *)
Definition due (t0 t : float) : bool := PrimFloat.ltb stepInMs (PrimFloat.sub t t0).

(** Both variables refer to grids of the program's dimensions. *)
Definition refs_ok (st : state) : Prop :=
  exists g t, heap st !! grid st = Some g /\ rect g /\
              heap st !! tempGrid st = Some t /\ rect t.

(** ... and every cell of both is 0 or 1. *)
Definition grids_ok (st : state) : Prop :=
  exists g t, heap st !! grid st = Some g /\ rect g /\ binary g /\
              heap st !! tempGrid st = Some t /\ rect t /\ binary t.

(** Number of the callbacks of a sequence that call [update], from the value
    of [startTime] and the timestamps alone. *)
Fixpoint steps_due (clock : option float) (ts : list float) : Z :=
  match ts with
  | [] => 0
  | t :: ts =>
      match clock with
      | None => steps_due (Some t) ts
      | Some t0 =>
          if due t0 t then 1 + steps_due (Some t) ts
          else steps_due clock ts
      end
  end.

(** [(x0, y0)] is one of the eight neighbours of [(x, y)]. *)
Definition neighbour (x y x0 y0 : Z) : bool :=
  (x - 1 <=? x0) && (x0 <=? x + 1) && (y - 1 <=? y0) && (y0 <=? y + 1) &&
  negb ((x0 =? x) && (y0 =? y)).

(** The rectangles [drawCells] draws for a grid, in the order of its loops. *)
Definition drawn (g : array2) : list event :=
  x ← seqZ 0 cols;
  y ← seqZ 0 rows;
  if truthy (cellValue g x y)
  then [FillRect (Rgb x y 100) (x * size) (y * size) size size]
  else [].

(** The grid [seed] leaves in [grid] when the count of random numbers was
    [r0] before: cell [(x, y)] from draw number [r0 + x * rows + y]. *)
Definition seeded_cell (r0 : nat) (x y : Z) : cell :=
  VNum (if random_gt_half (r0 + Z.to_nat x * Z.to_nat rows + Z.to_nat y)%nat
        then 1 else 0).

Definition seeded_grid (r0 : nat) : array2 :=
  (fun x => Some ((fun y => seeded_cell r0 x y) <$> seqZ 0 rows)) <$> seqZ 0 cols.

(** ** Scripted random numbers

    The oracle that answers from a list, and the list that makes [seed]
    plant the given cells on a grid of [rows] rows (the seeding loop asks
    for cell [(x, y)] at position [x * rows + y]). *)

Definition oracle (l : list bool) (n : nat) : bool := nth n l false.

Definition plant (rows total : nat) (cells : list (nat * nat)) : list bool :=
  map (fun n => existsb (fun c => (fst c * rows + snd c =? n)%nat) cells) (seq 0 total).

(** Three cells in a line on a 3 x 3 grid. *)
Definition blinker : list bool := plant 3 9 [(0, 1); (1, 1); (2, 1)]%nat.

(** A 2 x 2 block on a 2 x 2 grid. *)
Definition block : list bool := [true; true; true; true].

(** A diagonal on a 3 x 3 grid, and for the seeding after it a 2 x 2 block. *)
Definition diagonal_then_block : list bool :=
  plant 3 9 [(0, 0); (1, 1); (2, 2)]%nat ++ plant 3 9 [(0, 0); (0, 1); (1, 0); (1, 1)]%nat.

(** Three cells in a line on an 11 x 1 grid, and for the seeding after it
    eleven live cells. *)
Definition line_then_full : list bool :=
  plant 1 11 [(0, 0); (1, 0); (2, 0)]%nat ++ repeat true 11.

(** Two blocks and a line of three on an 11 x 11 grid: 11 live cells, before
    and after a synchronous step. *)
Definition garden : list bool :=
  plant 11 121 [(0, 0); (0, 1); (1, 0); (1, 1); (4, 0); (4, 1); (5, 0); (5, 1);
                (8, 4); (8, 5); (8, 6)]%nat.

(** ** Grids and states for examples *)

(** A 3 x 3 grid with three live cells around the dead cell (1, 1). *)
Definition corner_grid : array2 :=
  [Some [VNum 1; VNum 1; VNum 0]; Some [VNum 1; VNum 0; VNum 0];
   Some [VNum 0; VNum 0; VNum 0]].

(** The 3 x 3 grid whose centre has state [s] and whose first [n]
    neighbours, in reading order, are live. *)
Definition ring (s : Z) (n : nat) : array2 :=
  let b k := VNum (if (k <? n)%nat then 1 else 0) in
  [Some [b 0%nat; b 1%nat; b 2%nat]; Some [b 3%nat; VNum s; b 4%nat];
   Some [b 5%nat; b 6%nat; b 7%nat]].

(** A state with [grid] dead and [tempGrid] another array, not dead. *)
Definition dead_state : state :=
  State (<[2%positive := corner_grid]>
           (<[1%positive := replicate 3 (Some (replicate 3 (VNum 0)))]> ∅))
        1%positive 2%positive None 0 0 [].

(** A state with [corner_grid] as [grid] and a dead [tempGrid]. *)
Definition corner_state : state :=
  State (<[2%positive := replicate 3 (Some (replicate 3 (VNum 0)))]>
           (<[1%positive := corner_grid]> ∅))
        1%positive 2%positive None 0 0 [].

(** ** Loops and their ranges *)

Lemma Qlt_bool_Z (x : Z) (q : Q) : Qlt_bool (inject_Z x) q = (x <? Qceiling q).
Proof.
  unfold Qlt_bool.
  destruct (Z.ltb_spec x (Qceiling q)) as [Hlt | Hge].
  - apply negb_true_iff, not_true_iff_false. rewrite Qle_bool_iff. intros Hle.
    assert (Hc : (inject_Z (Qceiling q - 1) < q)%Q) by apply Qceiling_lt.
    assert (Hx : (inject_Z (Qceiling q - 1) < inject_Z x)%Q)
      by (eapply Qlt_le_trans; eassumption).
    rewrite <- Zlt_Qlt in Hx. lia.
  - apply negb_false_iff, Qle_bool_iff.
    eapply Qle_trans; [apply Qle_ceiling |]. rewrite <- Zle_Qle. exact Hge.
Qed.

Lemma for_from_list {S} (body : Z -> S -> res S) (q : Q) (n : nat) (x : Z) (s : S) :
  Qceiling q - x <= Z.of_nat n ->
  for_from n x q body s = for_list (seqZ x (Qceiling q - x)) body s.
Proof.
  revert x s. induction n as [| n IH]; intros x s Hn; simpl; rewrite Qlt_bool_Z.
  - destruct (Z.ltb_spec x (Qceiling q)); [lia |]. by rewrite seqZ_nil by lia.
  - destruct (Z.ltb_spec x (Qceiling q)).
    + rewrite seqZ_cons by lia. simpl. destruct (body x s) as [s' | |]; simpl; try done.
      rewrite IH by lia. f_equal. f_equal; lia.
    + by rewrite seqZ_nil by lia.
Qed.

Lemma for_lt_fold {S} (body : Z -> S -> res S) (q : Q) (s : S) :
  for_lt q body s = for_list (seqZ 0 (Qceiling q)) body s.
Proof.
  unfold for_lt. rewrite for_from_list by lia. f_equal. f_equal. lia.
Qed.

Lemma Qceiling_quot (w : Z) :
  Qceiling (inject_Z w / inject_Z size) = (w + size - 1) / size.
Proof.
  unfold Qceiling, Qfloor, size. simpl.
  rewrite Z.mul_1_r. Z.div_mod_to_equations. lia.
Qed.

Lemma for_lt_qwidth {S} (body : Z -> S -> res S) (s : S) :
  for_lt qwidth body s = for_list (seqZ 0 cols) body s.
Proof. rewrite for_lt_fold. unfold qwidth, cols. by rewrite Qceiling_quot. Qed.

Lemma for_lt_qheight {S} (body : Z -> S -> res S) (s : S) :
  for_lt qheight body s = for_list (seqZ 0 rows) body s.
Proof. rewrite for_lt_fold. unfold qheight, rows. by rewrite Qceiling_quot. Qed.

(** ** Reading and writing grids *)

Lemma lookupZ_nat {A} (l : list A) (i : Z) :
  0 <= i -> lookupZ i l = l !! Z.to_nat i.
Proof. intros Hi. unfold lookupZ. destruct (Z.ltb_spec i 0); [lia | done]. Qed.

Lemma lookupZ_neg {A} (l : list A) (i : Z) : i < 0 -> lookupZ i l = None.
Proof. intros Hi. unfold lookupZ. destruct (Z.ltb_spec i 0); [done | lia]. Qed.

Lemma lookupZ_ge {A} (l : list A) (i : Z) :
  Z.of_nat (length l) <= i -> lookupZ i l = None.
Proof.
  intros Hi. rewrite lookupZ_nat by lia. apply lookup_ge_None_2. lia.
Qed.

Lemma list_set_inside {A} (hole : A) (l : list A) (i : Z) (v : A) :
  0 <= i < Z.of_nat (length l) -> list_set hole l i v = <[Z.to_nat i := v]> l.
Proof.
  intros Hi. unfold list_set.
  destruct (Z.ltb_spec i 0); [lia |].
  destruct (Z.ltb_spec i (Z.of_nat (length l))); [done | lia].
Qed.

Lemma column_at_Some (a : array2) (x : Z) (c : column) :
  column_at a x = Some c <-> 0 <= x /\ a !! Z.to_nat x = Some (Some c).
Proof.
  unfold column_at. destruct (Z.ltb_spec x 0) as [Hx | Hx].
  - rewrite lookupZ_neg by done. simpl. split; [done | lia].
  - rewrite lookupZ_nat by done.
    destruct (a !! Z.to_nat x) as [[c' |] |]; simpl; intuition congruence.
Qed.

Lemma rect_column (a : array2) (x : Z) :
  rect a -> 0 <= x < cols ->
  exists c, column_at a x = Some c /\ length c = Z.to_nat rows.
Proof.
  intros [Hlen Hall] Hx.
  destruct (lookup_lt_is_Some_2 a (Z.to_nat x)) as [o Ho]; [lia |].
  destruct (Hall o) as (c & -> & Hc); [by eapply list_elem_of_lookup_2 |].
  exists c. split; [| done]. apply column_at_Some. split; [lia | done].
Qed.

Lemma rect_column_out (a : array2) (x : Z) :
  rect a -> ~ (0 <= x < cols) -> column_at a x = None.
Proof.
  intros [Hlen _] Hx. unfold column_at.
  destruct (Z.ltb_spec x 0); [by rewrite lookupZ_neg |].
  rewrite lookupZ_ge; [done | lia].
Qed.

Lemma rect_get2 (a : array2) (x y : Z) :
  rect a -> 0 <= x < cols -> exists v, get2 a x y = Ok v.
Proof.
  intros Ha Hx. destruct (rect_column a x Ha Hx) as (c & Hc & _).
  unfold get2. rewrite Hc. eauto.
Qed.

Lemma rect_insert (a : array2) (i : nat) (c : column) :
  rect a -> length c = Z.to_nat rows -> rect (<[i := Some c]> a).
Proof.
  intros [Hlen Hall] Hc. split; [by rewrite length_insert |].
  intros o Ho. apply list_elem_of_lookup in Ho as [j Hj].
  destruct (decide (i = j)) as [-> | Hne].
  - destruct (decide (j < length a)%nat) as [Hlt | Hge].
    + rewrite list_lookup_insert_eq in Hj by done. injection Hj as <-. eauto.
    + rewrite list_insert_ge in Hj by lia. apply Hall. by eapply list_elem_of_lookup_2.
  - rewrite list_lookup_insert_ne in Hj by done.
    apply Hall. by eapply list_elem_of_lookup_2.
Qed.

Lemma rect_set2 (a : array2) (x y : Z) (v : cell) :
  rect a -> 0 <= x < cols -> 0 <= y < rows ->
  exists c, column_at a x = Some c /\
            set2 a x y v = Ok (<[Z.to_nat x := Some (<[Z.to_nat y := v]> c)]> a) /\
            rect (<[Z.to_nat x := Some (<[Z.to_nat y := v]> c)]> a).
Proof.
  intros Ha Hx Hy. destruct (rect_column a x Ha Hx) as (c & Hc & Hlen).
  exists c. split; [done |]. unfold set2. rewrite Hc.
  rewrite (list_set_inside VUndef) by lia.
  rewrite (list_set_inside None) by (destruct Ha; lia).
  split; [done |]. apply rect_insert; [done |]. by rewrite length_insert.
Qed.

(** ** The neighbour counter and the cell rule *)

Lemma cellValue_no_column (g : array2) (x y : Z) :
  column_at g x = None -> get2 g x y = Throw /\ cellValue g x y = VNum 0.
Proof. intros H. unfold cellValue, get2. by rewrite H. Qed.

Lemma cellValue_column (g : array2) (x y : Z) (c : column) :
  column_at g x = Some c ->
  get2 g x y = Ok (default VUndef (lookupZ y c)) /\
  cellValue g x y = default VUndef (lookupZ y c).
Proof. intros H. unfold cellValue, get2. by rewrite H. Qed.

Lemma column_at_outside (g : array2) (x : Z) :
  ~ (0 <= x < Z.of_nat (length g)) -> column_at g x = None.
Proof.
  intros Hx. unfold column_at.
  destruct (Z.ltb_spec x 0); [by rewrite lookupZ_neg |].
  rewrite lookupZ_ge; [done | lia].
Qed.

Lemma countNeighbours_bits (g : array2) (x y : Z) :
  countNeighbours g x y =
  bit g (x - 1) (y - 1) + bit g (x - 1) y + bit g (x - 1) (y + 1) +
  bit g x (y - 1) + bit g x (y + 1) +
  bit g (x + 1) (y - 1) + bit g (x + 1) y + bit g (x + 1) (y + 1).
Proof.
  unfold countNeighbours, bit.
  repeat match goal with |- context [truthy ?c] => destruct (truthy c) end; lia.
Qed.

Lemma bit_bounds (g : array2) (x y : Z) : 0 <= bit g x y <= 1.
Proof. unfold bit. destruct (truthy _); lia. Qed.

Lemma countNeighbours_bounds (g : array2) (x y : Z) : 0 <= countNeighbours g x y <= 8.
Proof.
  rewrite countNeighbours_bits.
  pose proof (bit_bounds g (x - 1) (y - 1)). pose proof (bit_bounds g (x - 1) y).
  pose proof (bit_bounds g (x - 1) (y + 1)). pose proof (bit_bounds g x (y - 1)).
  pose proof (bit_bounds g x (y + 1)). pose proof (bit_bounds g (x + 1) (y - 1)).
  pose proof (bit_bounds g (x + 1) y). pose proof (bit_bounds g (x + 1) (y + 1)).
  lia.
Qed.

Lemma in_grid_true (x y : Z) :
  in_grid x y = true <-> 0 <= x < cols /\ 0 <= y < rows.
Proof. unfold in_grid. rewrite !andb_true_iff, !Z.leb_le, !Z.ltb_lt. lia. Qed.

Lemma in_grid_false (x y : Z) :
  in_grid x y = false <-> ~ (0 <= x < cols /\ 0 <= y < rows).
Proof. rewrite <- in_grid_true. destruct (in_grid x y); intuition congruence. Qed.

(** On a grid of zeros and ones a caught fault, a read of [undefined] and a
    dead cell all count as 0, a live cell as 1. *)
Lemma bit_alive (g : array2) (x y : Z) :
  rect g -> binary g -> bit g x y = alive g x y.
Proof.
  intros Hr Hb. unfold bit, alive.
  destruct (in_grid x y) eqn:Hin.
  - apply in_grid_true in Hin as [Hx Hy].
    destruct (rect_get2 g x y Hr Hx) as [v Hv].
    unfold cellValue. rewrite Hv.
    destruct (Hb x y v Hv Hx Hy) as [-> | ->]; done.
  - apply in_grid_false in Hin.
    destruct (decide (0 <= x < cols)) as [Hx | Hx].
    + destruct (rect_column g x Hr Hx) as (c & Hc & Hlen).
      destruct (cellValue_column g x y c Hc) as [_ ->].
      destruct (Z.ltb_spec y 0); [by rewrite lookupZ_neg |].
      rewrite lookupZ_ge; [done | lia].
    + destruct (cellValue_no_column g x y (rect_column_out g x Hr Hx)) as [_ ->]. done.
Qed.

Lemma offsets_eq :
  offsets = [(-1, -1); (-1, 0); (-1, 1); (0, -1); (0, 1); (1, -1); (1, 0); (1, 1)].
Proof. reflexivity. Qed.

Lemma alive_binary (g : array2) (x y : Z) :
  binary g -> alive g x y = 0 \/ alive g x y = 1.
Proof.
  intros Hb. unfold alive. destruct (in_grid x y) eqn:Hin; [| by left].
  apply in_grid_true in Hin as [Hx Hy].
  destruct (get2 g x y) as [v | |] eqn:Hv; [| by left | by left].
  destruct (Hb x y v Hv Hx Hy) as [-> | ->]; auto.
Qed.

Lemma get2_alive (g : array2) (x y : Z) :
  rect g -> binary g -> 0 <= x < cols -> 0 <= y < rows ->
  get2 g x y = Ok (VNum (alive g x y)).
Proof.
  intros Hr Hb Hx Hy. unfold alive.
  assert (Hin : in_grid x y = true) by (by apply in_grid_true).
  rewrite Hin. destruct (rect_get2 g x y Hr Hx) as [v Hv]. rewrite Hv.
  destruct (Hb x y v Hv Hx Hy) as [-> | ->]; done.
Qed.

Lemma countNeighbours_neighborCount (g : array2) (x y : Z) :
  rect g -> binary g -> countNeighbours g x y = neighborCount g x y.
Proof.
  intros Hr Hb. rewrite countNeighbours_bits, !(bit_alive g) by done.
  unfold neighborCount. rewrite offsets_eq. simpl.
  rewrite !Z.add_0_r. replace (x + -1) with (x - 1) by lia.
  replace (y + -1) with (y - 1) by lia. lia.
Qed.

(** The code of [updateCell] on a cell of the grid, its reads resolved. *)
Lemma updateCell_code (g : array2) (x y : Z) :
  rect g -> binary g -> in_grid x y = true ->
  updateCell g x y =
    if (countNeighbours g x y >? 3) || (countNeighbours g x y <? 2) then Ok (VNum 0)
    else if (alive g x y =? 0) && (countNeighbours g x y =? 3) then Ok (VNum 1)
    else Ok (VNum (alive g x y)).
Proof.
  intros Hr Hb Hin. apply in_grid_true in Hin as [Hx Hy].
  unfold updateCell. rewrite (get2_alive g x y Hr Hb Hx Hy). done.
Qed.

Lemma updateCell_transition (g : array2) (x y : Z) :
  rect g -> binary g -> in_grid x y = true ->
  updateCell g x y = Ok (VNum (transition (alive g x y) (countNeighbours g x y))).
Proof.
  intros Hr Hb Hin. rewrite updateCell_code by done.
  pose proof (alive_binary g x y Hb) as Hs.
  pose proof (countNeighbours_bounds g x y) as Hn.
  set (s := alive g x y) in *. set (n := countNeighbours g x y) in *.
  assert (Hcases : n = 0 \/ n = 1 \/ n = 2 \/ n = 3 \/ n = 4 \/ n = 5 \/ n = 6 \/
                   n = 7 \/ n = 8) by lia.
  destruct Hs as [-> | ->];
    destruct Hcases as [-> | [-> | [-> | [-> | [-> | [-> | [-> | [-> | ->]]]]]]]];
    reflexivity.
Qed.

(** C9. For every array and every pair of integers, [cellValue] returns a
    value (its type has no exception: the [try] catches every fault): where
    [grid[x]] is not an element of the outer array the read [grid[x][y]]
    raises and the result is the [0] of the [catch]; where [grid[x]] is a
    column and [y] is outside it the result is [undefined], which is falsy.
    Hence [countNeighbours] is a total function with values from 0 to 8. *)
Theorem cellValue_total (g : array2) (x y : Z) :
  (~ (0 <= x < Z.of_nat (length g)) ->
     get2 g x y = Throw /\ cellValue g x y = VNum 0) /\
  (forall c, column_at g x = Some c -> ~ (0 <= y < Z.of_nat (length c)) ->
     get2 g x y = Ok VUndef /\ cellValue g x y = VUndef /\
     truthy (cellValue g x y) = false) /\
  0 <= countNeighbours g x y <= 8.
Proof.
  split; [| split].
  - intros Hx. apply cellValue_no_column, column_at_outside, Hx.
  - intros c Hc Hy. destruct (cellValue_column g x y c Hc) as [-> ->].
    assert (lookupZ y c = None) as ->.
    { destruct (Z.ltb_spec y 0); [by apply lookupZ_neg | apply lookupZ_ge; lia]. }
    done.
  - apply countNeighbours_bounds.
Qed.

(** C4. On a grid of the program's dimensions whose cells are 0 or 1, for
    every coordinate (inside, on the border, in a corner, or anywhere else),
    [countNeighbours] is the sum of the states at the eight offsets, an
    offset outside the grid counting 0; it lies between 0 and 8. *)
Theorem countNeighbours_sum (g : array2) (x y : Z) :
  rect g -> binary g ->
  countNeighbours g x y = neighborCount g x y /\
  (forall d, d ∈ offsets -> in_grid (x + d.1) (y + d.2) = false ->
             alive g (x + d.1) (y + d.2) = 0) /\
  0 <= countNeighbours g x y <= 8.
Proof.
  intros Hr Hb. split; [| split].
  - by apply countNeighbours_neighborCount.
  - intros d _ Hout. unfold alive. by rewrite Hout.
  - apply countNeighbours_bounds.
Qed.

(** C3. For a cell of state [s] (0 or 1) with [n] live neighbours,
    [updateCell] returns 0 when [n > 3] or [n < 2], 1 when [s = 0] and
    [n = 3], and [s] otherwise; that is the table of the four rules. *)
Theorem updateCell_rule (g : array2) (x y : Z) :
  rect g -> binary g -> in_grid x y = true ->
  let s := alive g x y in
  let n := countNeighbours g x y in
  (s = 0 \/ s = 1) /\ 0 <= n <= 8 /\
  (n > 3 \/ n < 2 -> updateCell g x y = Ok (VNum 0)) /\
  (s = 0 -> n = 3 -> updateCell g x y = Ok (VNum 1)) /\
  (2 <= n <= 3 -> ~ (s = 0 /\ n = 3) -> updateCell g x y = Ok (VNum s)) /\
  updateCell g x y = Ok (VNum (transition s n)).
Proof.
  intros Hr Hb Hin s n.
  pose proof (alive_binary g x y Hb) as Hs. fold s in Hs.
  pose proof (countNeighbours_bounds g x y) as Hn. fold n in Hn.
  split; [done |]. split; [done |].
  split; [| split; [| split]].
  - intros Hout. rewrite updateCell_code by done. fold n.
    destruct (Z.gtb_spec n 3), (Z.ltb_spec n 2); simpl; try done; lia.
  - intros Hs0 Hn3. rewrite updateCell_code by done. fold s n. by rewrite Hs0, Hn3.
  - intros Hmid Hnot. rewrite updateCell_code by done. fold s n.
    destruct (Z.gtb_spec n 3), (Z.ltb_spec n 2); simpl; try lia.
    destruct (Z.eqb_spec s 0), (Z.eqb_spec n 3); simpl; try done; lia.
  - by apply updateCell_transition.
Qed.

(** ** Reasoning about loops *)

Lemma for_list_app {S} (body : Z -> S -> res S) (xs ys : list Z) (s : S) :
  for_list (xs ++ ys) body s = (s' ← for_list xs body s; for_list ys body s').
Proof.
  revert s. induction xs as [| x xs IH]; intros s; simpl; [done |].
  destruct (body x s) as [s' | |]; simpl; [apply IH | done | done].
Qed.

(** An invariant that every round keeps, and that lets every round return. *)
Lemma for_list_inv {S} (I : S -> Prop) (body : Z -> S -> res S) (xs : list Z) (s : S) :
  I s ->
  (forall x s, x ∈ xs -> I s -> exists s', body x s = Ok s' /\ I s') ->
  exists s', for_list xs body s = Ok s' /\ I s'.
Proof.
  revert s. induction xs as [| x xs IH]; intros s Hs Hbody; simpl; [eauto |].
  destruct (Hbody x s) as (s1 & -> & Hs1); [left | done |]. simpl.
  apply IH; [done |]. intros x' s' Hx'. apply Hbody. by right.
Qed.

(** A reflexive and transitive relation that every returning round
    establishes holds between the two ends of a returning loop. *)
Lemma for_list_rel {S} (R : S -> S -> Prop) (body : Z -> S -> res S)
    (xs : list Z) (s s' : S) :
  (forall s, R s s) -> (forall a b c, R a b -> R b c -> R a c) ->
  (forall x a b, x ∈ xs -> body x a = Ok b -> R a b) ->
  for_list xs body s = Ok s' -> R s s'.
Proof.
  intros Hrefl Htrans. revert s. induction xs as [| x xs IH]; intros s Hbody; simpl.
  - intros [= <-]. apply Hrefl.
  - destruct (body x s) as [s1 | |] eqn:E; simpl; [| done | done].
    intros Hrest. apply (Htrans _ s1).
    + apply (Hbody x); [left | done].
    + apply IH; [| done]. intros x' a b Hx'. apply Hbody. by right.
Qed.

Lemma for_list_fixed {S} (body : Z -> S -> res S) (xs : list Z) (s : S) :
  (forall x, x ∈ xs -> body x s = Ok s) -> for_list xs body s = Ok s.
Proof.
  induction xs as [| x xs IH]; intros Hbody; simpl; [done |].
  rewrite Hbody by left. simpl. apply IH. intros x' Hx'. apply Hbody. by right.
Qed.

(** ** State bookkeeping *)

Lemma set_heap_set_heap (h1 h2 : gmap loc array2) (st : state) :
  set_heap h2 (set_heap h1 st) = set_heap h2 st.
Proof. done. Qed.

Lemma set_heap_id (st : state) : set_heap (heap st) st = st.
Proof. by destruct st. Qed.

Lemma log_nil (st : state) : log [] st = st.
Proof. by destruct st. Qed.

Lemma log_log (es1 es2 : list event) (st : state) :
  log es2 (log es1 st) = log (es2 ++ es1) st.
Proof. unfold log; simpl. by rewrite app_assoc. Qed.

Lemma cycles_log (es : list event) (st : state) :
  cycles (log es st) = (length (List.filter is_clear es) + cycles st)%nat.
Proof. unfold cycles, log; simpl. by rewrite List.filter_app, length_app. Qed.

(** ** One cell of a step *)

Lemma seqZ_to_nat (m n : Z) : seqZ m n = seqZ m (Z.of_nat (Z.to_nat n)).
Proof. unfold seqZ. by rewrite Nat2Z.id. Qed.

Lemma deref_lookup (h : gmap loc array2) (l : loc) (a : array2) :
  h !! l = Some a -> deref h l = a.
Proof. intros H. unfold deref. by rewrite H. Qed.

Lemma updateCell_ok (g : array2) (x y : Z) :
  rect g -> 0 <= x < cols -> updateCell g x y = Ok (next_cell g x y).
Proof.
  intros Hr Hx. unfold next_cell.
  destruct (rect_get2 g x y Hr Hx) as [v Hv].
  unfold updateCell. rewrite Hv. simpl.
  destruct (_ || _); [done |]. destruct (_ && _); done.
Qed.

Lemma update_cell_at_eq (st : state) (x y : Z) (g t t' : array2) (v : cell) :
  heap st !! grid st = Some g -> heap st !! tempGrid st = Some t ->
  updateCell g x y = Ok v -> set2 t x y v = Ok t' ->
  update_cell_at x y st = Ok (set_heap (<[tempGrid st := t']> (heap st)) st).
Proof.
  intros Hg Ht Hv Ht'. unfold update_cell_at.
  rewrite (deref_lookup _ _ _ Hg), (deref_lookup _ _ _ Ht), Hv. simpl.
  by rewrite Ht'.
Qed.

Lemma update_cell_at_ok (st : state) (x y : Z) :
  refs_ok st -> 0 <= x < cols -> 0 <= y < rows ->
  exists h', update_cell_at x y st = Ok (set_heap h' st) /\ refs_ok (set_heap h' st).
Proof.
  intros (g & t & Hg & Hrg & Ht & Hrt) Hx Hy.
  unfold update_cell_at.
  rewrite (deref_lookup _ _ _ Hg), (deref_lookup _ _ _ Ht).
  rewrite (updateCell_ok g x y Hrg Hx). simpl.
  destruct (rect_set2 t x y (next_cell g x y) Hrt Hx Hy) as (c & Hc & -> & Hrt').
  simpl. eexists. split; [done |].
  destruct (decide (grid st = tempGrid st)) as [Heq | Hne].
  - eexists _, _. simpl. rewrite Heq, lookup_insert_eq. done.
  - exists g. eexists. simpl. rewrite lookup_insert_ne by done.
    rewrite lookup_insert_eq. done.
Qed.

(** The two loops of [update] return on grids of the program's dimensions,
    whether or not [grid] and [tempGrid] are the same array, and change
    nothing but the contents of arrays. *)
Lemma update_cells_ok (st : state) :
  refs_ok st ->
  exists h', update_cells st = Ok (set_heap h' st) /\ refs_ok (set_heap h' st).
Proof.
  intros Hok. unfold update_cells. rewrite for_lt_qwidth.
  pose (I := fun s : state => exists h', s = set_heap h' st /\ refs_ok s).
  assert (HI : I st) by (exists (heap st); by rewrite set_heap_id).
  destruct (for_list_inv I (fun x => for_lt qheight (fun y => update_cell_at x y))
              (seqZ 0 cols) st HI) as (s' & Hs' & h' & -> & Hok').
  - intros x s Hx%elem_of_seqZ Hs. rewrite for_lt_qheight.
    apply (for_list_inv I); [done |].
    intros y s0 Hy%elem_of_seqZ (h0 & -> & Hok0).
    destruct (update_cell_at_ok (set_heap h0 st) x y Hok0) as (h1 & Hupd & Hok1);
      [lia | lia |].
    exists (set_heap h1 st). split; [done |]. exists h1. done.
  - eauto.
Qed.

(** ** A step whose two arrays are distinct *)

Section Separate.

Variables (st : state) (g : array2).
Hypothesis Hne : grid st <> tempGrid st.
Hypothesis Hg : heap st !! grid st = Some g.
Hypothesis Hrg : rect g.

Lemma update_column_separate (t : array2) (c : column) (x : Z) (n : nat) :
  column_at t x = Some c -> 0 <= x < cols -> (n <= length c)%nat ->
  for_list (seqZ 0 (Z.of_nat n)) (fun y => update_cell_at x y)
           (set_heap (<[tempGrid st := t]> (heap st)) st)
  = Ok (set_heap
          (<[tempGrid st :=
               <[Z.to_nat x := Some ((next_cell g x <$> seqZ 0 (Z.of_nat n)) ++ drop n c)]> t]>
             (heap st)) st).
Proof.
  intros Hc Hx. apply column_at_Some in Hc as [_ Hc].
  induction n as [| n IH]; intros Hn.
  - simpl. rewrite drop_0, list_insert_id by done. done.
  - rewrite seqZ_S, for_list_app, IH by lia. simpl. rewrite Z.add_0_l.
    assert (Hlt : (Z.to_nat x < length t)%nat) by (by eapply lookup_lt_Some).
    assert (Hcol : column_at
              (<[Z.to_nat x := Some ((next_cell g x <$> seqZ 0 (Z.of_nat n)) ++ drop n c)]> t) x
            = Some ((next_cell g x <$> seqZ 0 (Z.of_nat n)) ++ drop n c)).
    { apply column_at_Some. split; [lia |]. by apply list_lookup_insert_eq. }
    erewrite update_cell_at_eq; cycle 1.
    { simpl. rewrite lookup_insert_ne by (intros E; by apply Hne). exact Hg. }
    { simpl. apply lookup_insert_eq. }
    { by apply updateCell_ok. }
    { unfold set2. rewrite Hcol. reflexivity. }
    simpl.
    assert (Hpre : length (next_cell g x <$> seqZ 0 (Z.of_nat n)) = n)
      by (rewrite length_fmap, length_seqZ; lia).
    rewrite (list_set_inside VUndef)
      by (rewrite length_app, Hpre, length_drop; lia).
    rewrite (list_set_inside None) by (rewrite length_insert; lia).
    rewrite set_heap_set_heap, list_insert_insert_eq, insert_insert_eq.
    do 4 f_equal.
    rewrite Nat2Z.id, insert_app_r_alt by lia. rewrite Hpre, Nat.sub_diag.
    destruct (lookup_lt_is_Some_2 c n) as [a Ha]; [lia |].
    rewrite (drop_S c a n Ha). simpl.
    rewrite fmap_app. simpl. by rewrite <- app_assoc.
Qed.

Lemma update_columns_separate (t : array2) (m : nat) :
  rect t -> (m <= length t)%nat ->
  for_list (seqZ 0 (Z.of_nat m)) (fun x => for_lt qheight (fun y => update_cell_at x y))
           (set_heap (<[tempGrid st := t]> (heap st)) st)
  = Ok (set_heap
          (<[tempGrid st :=
               ((fun x => Some (next_cell g x <$> seqZ 0 rows)) <$> seqZ 0 (Z.of_nat m))
                 ++ drop m t]> (heap st)) st).
Proof.
  intros Hrt. induction m as [| m IH]; intros Hm.
  - simpl. by rewrite drop_0.
  - rewrite seqZ_S, for_list_app, IH by lia. simpl. rewrite !Z.add_0_l.
    rewrite for_lt_qheight.
    set (pre := (fun x => Some (next_cell g x <$> seqZ 0 rows)) <$> seqZ 0 (Z.of_nat m)).
    assert (Hpre : length pre = m) by (unfold pre; rewrite length_fmap, length_seqZ; lia).
    destruct (lookup_lt_is_Some_2 t m) as [o Ho]; [lia |].
    destruct Hrt as [Hlen Hall].
    destruct (Hall o) as (c & -> & Hc); [by eapply list_elem_of_lookup_2 |].
    assert (Hcol : column_at (pre ++ drop m t) (Z.of_nat m) = Some c).
    { apply column_at_Some. split; [lia |].
      rewrite Nat2Z.id, lookup_app_r by lia. rewrite Hpre, Nat.sub_diag.
      by rewrite lookup_drop, Nat.add_0_r. }
    rewrite (seqZ_to_nat 0 rows).
    rewrite (update_column_separate (pre ++ drop m t) c (Z.of_nat m) (Z.to_nat rows) Hcol)
      by lia.
    do 3 f_equal.
    rewrite <- Hc, drop_all, app_nil_r, Nat2Z.id.
    rewrite insert_app_r_alt by lia. rewrite Hpre, Nat.sub_diag.
    rewrite (drop_S t (Some c) m Ho). simpl.
    rewrite fmap_app. simpl. rewrite <- app_assoc. simpl.
    unfold pre. by rewrite (seqZ_to_nat 0 rows), Hc.
Qed.

(** With distinct arrays the loops leave [grid] alone and fill [tempGrid]
    with the image of [grid]. *)
Lemma update_cells_separate (t : array2) :
  heap st !! tempGrid st = Some t -> rect t ->
  update_cells st = Ok (set_heap (<[tempGrid st := image g]> (heap st)) st).
Proof.
  intros Ht Hrt. unfold update_cells. rewrite for_lt_qwidth.
  rewrite <- (set_heap_id st) at 1. rewrite <- (insert_id (heap st) _ _ Ht) at 1.
  rewrite (seqZ_to_nat 0 cols).
  rewrite (update_columns_separate t (Z.to_nat cols) Hrt) by (destruct Hrt; lia).
  do 3 f_equal. destruct Hrt as [Hlen _].
  rewrite <- Hlen, drop_all, app_nil_r. unfold image.
  by rewrite Hlen, <- seqZ_to_nat.
Qed.

End Separate.

(** ** The synchronous image and the specification's step *)

Lemma fmap_seqZ_ext {A} (f f' : Z -> A) (m n : Z) :
  (forall k, m <= k < m + n -> f k = f' k) -> f <$> seqZ m n = f' <$> seqZ m n.
Proof. intros H. apply Forall_fmap_ext, Forall_seqZ, H. Qed.

Lemma image_spec_step (g : array2) :
  rect g -> binary g -> image g = spec_step g.
Proof.
  intros Hr Hb. unfold image, spec_step.
  apply fmap_seqZ_ext. intros x Hx. f_equal.
  apply fmap_seqZ_ext. intros y Hy. unfold next_cell.
  rewrite updateCell_transition by (try done; apply in_grid_true; lia).
  by rewrite countNeighbours_neighborCount.
Qed.

(** ** The dead grid *)

Lemma rect_zeros : rect zeros.
Proof.
  split; [apply length_replicate |].
  intros o [-> _]%elem_of_replicate. eexists. split; [done |]. apply length_replicate.
Qed.

Lemma column_at_zeros (x : Z) :
  0 <= x < cols -> column_at zeros x = Some (replicate (Z.to_nat rows) (VNum 0)).
Proof.
  intros Hx. apply column_at_Some. split; [lia |].
  apply lookup_replicate_2. lia.
Qed.

Lemma get2_zeros (x y : Z) (c : cell) :
  get2 zeros x y = Ok c -> 0 <= x < cols -> 0 <= y < rows -> c = VNum 0.
Proof.
  intros Hget Hx Hy. unfold get2 in Hget. rewrite column_at_zeros in Hget by done.
  rewrite lookupZ_nat, lookup_replicate_2 in Hget by lia. by injection Hget as <-.
Qed.

Lemma binary_zeros : binary zeros.
Proof. intros x y c Hget Hx Hy. left. by eapply get2_zeros. Qed.

Lemma alive_zeros (x y : Z) : alive zeros x y = 0.
Proof.
  unfold alive. destruct (in_grid x y) eqn:Hin; [| done].
  apply in_grid_true in Hin as [Hx Hy].
  destruct (get2 zeros x y) as [c | |] eqn:Hget; [| done | done].
  by rewrite (get2_zeros x y c Hget Hx Hy).
Qed.

Lemma countNeighbours_zeros (x y : Z) : countNeighbours zeros x y = 0.
Proof.
  rewrite countNeighbours_bits, !(bit_alive zeros), !alive_zeros;
    auto using rect_zeros, binary_zeros.
Qed.

(** No cell of the dead grid has three live neighbours: the first test of
    [updateCell] returns 0. *)
Lemma updateCell_zeros (x y : Z) : updateCell zeros x y = Ok (VNum 0).
Proof. unfold updateCell. by rewrite countNeighbours_zeros. Qed.

Lemma image_zeros : image zeros = zeros.
Proof.
  unfold image.
  assert (Hcol : forall x : Z,
            Some ((fun y => next_cell zeros x y) <$> seqZ 0 rows)
            = Some (replicate (Z.to_nat rows) (VNum 0))).
  { intros x. f_equal. rewrite <- (length_seqZ 0 rows). apply const_fmap.
    intros _ y _. unfold next_cell. by rewrite updateCell_zeros. }
  unfold zeros at 2. rewrite <- (length_seqZ 0 cols). apply const_fmap.
  intros _ x _. apply Hcol.
Qed.

Lemma set2_zeros (x y : Z) :
  0 <= x < cols -> 0 <= y < rows -> set2 zeros x y (VNum 0) = Ok zeros.
Proof.
  intros Hx Hy.
  destruct (rect_set2 zeros x y (VNum 0) rect_zeros Hx Hy) as (c & Hc & -> & _).
  rewrite column_at_zeros in Hc by done. injection Hc as <-. f_equal.
  rewrite (list_insert_id (replicate _ _)) by (apply lookup_replicate_2; lia).
  apply list_insert_id, lookup_replicate_2. lia.
Qed.

Lemma step_zeros (st : state) (t : array2) :
  heap st !! grid st = Some zeros -> heap st !! tempGrid st = Some t -> rect t ->
  exists st', step st = Ok st' /\ heap st' !! grid st' = Some zeros /\
              tempGrid st' = grid st'.
Proof.
  intros Hg Ht Hrt. unfold step.
  destruct (decide (grid st = tempGrid st)) as [Heq | Hne].
  - assert (Hloops : update_cells st = Ok st).
    { unfold update_cells. rewrite for_lt_qwidth.
      apply for_list_fixed. intros x Hx%elem_of_seqZ. rewrite for_lt_qheight.
      apply for_list_fixed. intros y Hy%elem_of_seqZ.
      rewrite (update_cell_at_eq st x y zeros zeros zeros (VNum 0)); try done.
      + by rewrite <- Heq, insert_id, set_heap_id.
      + by rewrite <- Heq.
      + apply updateCell_zeros.
      + apply set2_zeros; lia. }
    rewrite Hloops. simpl. eexists. split; [done |]. simpl. by rewrite <- Heq.
  - rewrite (update_cells_separate st zeros Hne Hg rect_zeros t Ht Hrt). simpl.
    eexists. split; [done |]. simpl. by rewrite lookup_insert_eq, image_zeros.
Qed.

(** C8. From a grid whose every cell is 0, any number of steps returns, and
    returns a grid whose every cell is 0: no cell is born without exactly
    three live neighbours. *)
Theorem dead_grid_stays_dead (n : nat) (st : state) (t : array2) :
  heap st !! grid st = Some zeros -> heap st !! tempGrid st = Some t -> rect t ->
  exists st', steps n st = Ok st' /\ heap st' !! grid st' = Some zeros.
Proof.
  revert st t. induction n as [| n IH]; intros st t Hg Ht Hrt; simpl; [eauto |].
  destruct (step_zeros st t Hg Ht Hrt) as (st1 & -> & Hg1 & Halias). simpl.
  apply (IH st1 zeros); [done | by rewrite Halias | apply rect_zeros].
Qed.

(** ** Drawing and counting *)

Lemma sumZ_cons (a : Z) (l : list Z) : sumZ (a :: l) = a + sumZ l.
Proof. done. Qed.

Lemma sumZ_app (l1 l2 : list Z) : sumZ (l1 ++ l2) = sumZ l1 + sumZ l2.
Proof. unfold sumZ. induction l1 as [| a l1 IH]; simpl; lia. Qed.

Lemma sumZ_lookup {A} (d : A -> Z) (F : Z -> Z) (l : list A) :
  (forall i a, l !! i = Some a -> F (Z.of_nat i) = d a) ->
  sumZ (F <$> seqZ 0 (Z.of_nat (length l))) = sumZ (d <$> l).
Proof.
  induction l as [| a l IH] using rev_ind; intros HF; [done |].
  rewrite length_app. simpl. rewrite Nat.add_1_r, seqZ_S, !fmap_app, !sumZ_app.
  rewrite IH.
  - simpl. rewrite Z.add_0_l. f_equal. f_equal. apply HF.
    by rewrite lookup_app_r, Nat.sub_diag.
  - intros i b Hi. apply HF. by apply lookup_app_l_Some.
Qed.

Lemma sumZ_nonneg (l : list Z) : Forall (fun z => 0 <= z) l -> 0 <= sumZ l.
Proof. unfold sumZ. induction 1; simpl; lia. Qed.

Lemma live_nonneg (a : array2) : 0 <= live a.
Proof.
  apply sumZ_nonneg, Forall_fmap, Forall_forall. intros o _. simpl.
  apply sumZ_nonneg, Forall_fmap, Forall_forall. intros c _. simpl.
  unfold cell_bit. destruct (truthy c); lia.
Qed.

Lemma draw_column (st : state) (g : array2) (x : Z) (c : column) (ys : list Z) :
  heap st !! grid st = Some g -> column_at g x = Some c ->
  forall (cnt : Z) (tr0 : list event), no_clear tr0 ->
  exists tr,
    for_list ys
      (fun y '(cnt, st) =>
         c ← get2 (deref (heap st) (grid st)) x y;
         if truthy c then
           Ok (cnt + 1, draw (x * size) (y * size) (Rgb x y 100) size st)
         else Ok (cnt, st))
      (cnt, log tr0 st)
    = Ok (cnt + sumZ ((fun y => cell_bit (default VUndef (lookupZ y c))) <$> ys),
          log tr st) /\ no_clear tr.
Proof.
  intros Hg Hc.
  assert (Hget : forall y, get2 g x y = Ok (default VUndef (lookupZ y c)))
    by (intros y; unfold get2; by rewrite Hc).
  induction ys as [| y ys IH]; intros cnt tr0 Htr0.
  - exists tr0. split; [| done]. cbn. by rewrite Z.add_0_r.
  - rewrite fmap_cons. cbn [for_list heap grid log].
    rewrite (deref_lookup _ _ _ Hg), Hget. cbn [mbind res_bind].
    unfold cell_bit at 1. destruct (truthy _).
    + change (draw (x * size) (y * size) (Rgb x y 100) size (log tr0 st))
        with (log (FillRect (Rgb x y 100) (x * size) (y * size) size size :: tr0) st).
      destruct (IH (cnt + 1) (FillRect (Rgb x y 100) (x * size) (y * size) size size :: tr0))
        as (tr & Hrun & Htr); [done |].
      exists tr. split; [| done]. etrans; [exact Hrun |].
      f_equal. f_equal. rewrite sumZ_cons. lia.
    + destruct (IH cnt tr0 Htr0) as (tr & Hrun & Htr).
      exists tr. split; [| done]. etrans; [exact Hrun |]. f_equal.
Qed.

Lemma draw_columns (st : state) (g : array2) (xs : list Z) :
  heap st !! grid st = Some g -> rect g ->
  (forall x, x ∈ xs -> 0 <= x < cols) ->
  forall (cnt : Z) (tr0 : list event), no_clear tr0 ->
  exists tr,
    for_list xs
      (fun x =>
         for_lt qheight (fun y '(cnt, st) =>
           c ← get2 (deref (heap st) (grid st)) x y;
           if truthy c then
             Ok (cnt + 1, draw (x * size) (y * size) (Rgb x y 100) size st)
           else Ok (cnt, st)))
      (cnt, log tr0 st)
    = Ok (cnt + sumZ ((fun x => column_live (column_at g x)) <$> xs), log tr st)
    /\ no_clear tr.
Proof.
  intros Hg Hr. induction xs as [| x xs IH]; intros Hxs cnt tr0 Htr0.
  - exists tr0. split; [| done]. cbn. by rewrite Z.add_0_r.
  - destruct (rect_column g x Hr) as (c & Hc & Hlen); [apply Hxs; left |].
    rewrite fmap_cons. cbn [for_list]. rewrite for_lt_qheight.
    destruct (draw_column st g x c (seqZ 0 rows) Hg Hc cnt tr0 Htr0) as (tr1 & -> & Htr1).
    cbn [mbind res_bind].
    destruct (IH (fun x' Hx' => Hxs x' (list_elem_of_further _ _ _ Hx'))
                 (cnt + sumZ ((fun y => cell_bit (default VUndef (lookupZ y c)))
                                <$> seqZ 0 rows)) tr1 Htr1) as (tr & Hrun & Htr).
    exists tr. split; [| done]. etrans; [exact Hrun |]. f_equal. f_equal.
    rewrite sumZ_cons, Hc. change (column_live (Some c)) with (sumZ (cell_bit <$> c)).
    rewrite (seqZ_to_nat 0 rows), <- Hlen.
    rewrite (sumZ_lookup cell_bit).
    + lia.
    + intros i a Hi. by rewrite lookupZ_nat, Nat2Z.id, Hi by lia.
Qed.

(** [drawCells] returns the number of live cells of the grid and changes
    nothing but the picture. *)
Lemma drawCells_spec (st : state) (g : array2) :
  heap st !! grid st = Some g -> rect g ->
  exists tr, drawCells st = Ok (live g, log tr st) /\ no_clear tr.
Proof.
  intros Hg Hr. unfold drawCells. rewrite for_lt_qwidth.
  destruct (draw_columns st g (seqZ 0 cols) Hg Hr) with (cnt := 0) (tr0 := @nil event)
    as (tr & Hrun & Htr); [by intros x Hx%elem_of_seqZ | done |].
  exists tr. split; [| done]. rewrite log_nil in Hrun.
  etrans; [exact Hrun |]. f_equal. f_equal. rewrite Z.add_0_l.
  destruct Hr as [Hlen _]. rewrite (seqZ_to_nat 0 cols), <- Hlen.
  unfold live. apply sumZ_lookup.
  intros i o Hi. unfold column_at. by rewrite lookupZ_nat, Nat2Z.id, Hi by lia.
Qed.

(** ** Writing a 0 or a 1 *)

Lemma get2_insert (a : array2) (c : column) (x y x' y' : Z) (v : cell) :
  column_at a x = Some c -> 0 <= y < Z.of_nat (length c) -> 0 <= x' -> 0 <= y' ->
  get2 (<[Z.to_nat x := Some (<[Z.to_nat y := v]> c)]> a) x' y'
  = if decide (x' = x /\ y' = y) then Ok v else get2 a x' y'.
Proof.
  intros Hc Hy Hx' Hy'. pose proof Hc as Hc'. apply column_at_Some in Hc' as [Hx Hl].
  assert (Hlt : (Z.to_nat x < length a)%nat) by (by eapply lookup_lt_Some).
  unfold get2. destruct (decide (x' = x)) as [-> | Hne].
  - assert (column_at (<[Z.to_nat x := Some (<[Z.to_nat y := v]> c)]> a) x
            = Some (<[Z.to_nat y := v]> c)) as ->.
    { apply column_at_Some. split; [done |]. by apply list_lookup_insert_eq. }
    rewrite Hc, !lookupZ_nat by done.
    destruct (decide (y' = y)) as [-> | Hney].
    + rewrite decide_True by done. by rewrite list_lookup_insert_eq by lia.
    + rewrite decide_False by tauto. by rewrite list_lookup_insert_ne by lia.
  - rewrite decide_False by tauto.
    assert (column_at (<[Z.to_nat x := Some (<[Z.to_nat y := v]> c)]> a) x'
            = column_at a x') as ->; [| done].
    unfold column_at. rewrite !lookupZ_nat by done.
    by rewrite list_lookup_insert_ne by lia.
Qed.

Lemma binary_insert (a : array2) (c : column) (x y : Z) (v : cell) :
  rect a -> binary a -> column_at a x = Some c ->
  0 <= x < cols -> 0 <= y < rows -> v = VNum 0 \/ v = VNum 1 ->
  binary (<[Z.to_nat x := Some (<[Z.to_nat y := v]> c)]> a).
Proof.
  intros Hr Hb Hc Hx Hy Hv x' y' v' Hget Hx' Hy'.
  destruct (rect_column a x Hr Hx) as (c0 & Hc0 & Hlen).
  rewrite Hc in Hc0. injection Hc0 as <-.
  rewrite (get2_insert a c x y x' y' v Hc) in Hget by lia.
  destruct (decide _); [by injection Hget as <- | by eapply Hb].
Qed.

Lemma next_cell_binary (g : array2) (x y : Z) :
  rect g -> binary g -> 0 <= x < cols -> 0 <= y < rows ->
  next_cell g x y = VNum 0 \/ next_cell g x y = VNum 1.
Proof.
  intros Hr Hb Hx Hy. unfold next_cell.
  rewrite updateCell_transition by (try done; apply in_grid_true; lia).
  destruct (alive_binary g x y Hb) as [-> | ->];
    pose proof (countNeighbours_bounds g x y) as Hn;
    set (n := countNeighbours g x y) in *;
    assert (Hcases : n = 0 \/ n = 1 \/ n = 2 \/ n = 3 \/ n = 4 \/ n = 5 \/ n = 6 \/
                     n = 7 \/ n = 8) by lia;
    destruct Hcases as [-> | [-> | [-> | [-> | [-> | [-> | [-> | [-> | ->]]]]]]]];
    cbn; auto.
Qed.

(** ** Creating and seeding grids *)

Lemma list_set_end {A} (hole : A) (l : list A) (v : A) :
  list_set hole l (Z.of_nat (length l)) v = l ++ [v].
Proof.
  unfold list_set.
  destruct (Z.ltb_spec (Z.of_nat (length l)) 0); [lia |].
  rewrite Z.ltb_irrefl, Nat2Z.id, Nat.sub_diag. done.
Qed.

Lemma init_column (pre : array2) (n : nat) :
  for_list (seqZ 0 (Z.of_nat n))
           (fun y arr => set2 arr (Z.of_nat (length pre)) y (VNum 0))
           (pre ++ [Some []])
  = Ok (pre ++ [Some (replicate n (VNum 0))]).
Proof.
  induction n as [| n IH]; [done |].
  rewrite seqZ_S, for_list_app, IH. cbn [for_list mbind res_bind]. rewrite Z.add_0_l.
  unfold set2.
  assert (Hcol : column_at (pre ++ [Some (replicate n (VNum 0))]) (Z.of_nat (length pre))
                 = Some (replicate n (VNum 0))).
  { apply column_at_Some. split; [lia |].
    by rewrite Nat2Z.id, lookup_app_r, Nat.sub_diag. }
  rewrite Hcol. f_equal.
  assert (Hset : list_set VUndef (replicate n (VNum 0)) (Z.of_nat n) (VNum 0)
                 = replicate (S n) (VNum 0)).
  { rewrite <- (length_replicate n (VNum 0)) at 2.
    by rewrite list_set_end, replicate_S_end. }
  rewrite Hset.
  rewrite (list_set_inside None) by (rewrite length_app; simpl; lia).
  by rewrite Nat2Z.id, insert_app_r_alt, Nat.sub_diag by lia.
Qed.

Lemma init_columns (h : Q) (m : nat) :
  for_list (seqZ 0 (Z.of_nat m))
    (fun x arr =>
       let arr := list_set None arr x (Some []) in
       for_lt h (fun y arr => set2 arr x y (VNum 0)) arr)
    []
  = Ok (replicate m (Some (replicate (Z.to_nat (Qceiling h)) (VNum 0)))).
Proof.
  induction m as [| m IH]; [done |].
  rewrite seqZ_S, for_list_app, IH. cbn [for_list mbind res_bind]. rewrite Z.add_0_l.
  set (pre := replicate m (Some (replicate (Z.to_nat (Qceiling h)) (VNum 0)))).
  assert (Hm : m = length pre) by (unfold pre; by rewrite length_replicate).
  cbn zeta. rewrite Hm. rewrite list_set_end, for_lt_fold.
  rewrite (seqZ_to_nat 0 (Qceiling h)), init_column.
  cbn [mbind res_bind]. rewrite <- Hm. unfold pre. by rewrite replicate_S_end.
Qed.

(** [initArray(width / size, height / size)] is the dead grid. *)
Lemma initArray_zeros : initArray qwidth qheight = Ok zeros.
Proof.
  unfold initArray. rewrite for_lt_qwidth, (seqZ_to_nat 0 cols), init_columns.
  unfold zeros, rows, qheight. by rewrite Qceiling_quot.
Qed.

Lemma fresh_lookup (h : gmap loc array2) : h !! fresh (dom h) = None.
Proof. apply not_elem_of_dom, is_fresh. Qed.

Lemma seeded_fresh (st : state) :
  let l1 := fresh (dom (heap st)) in
  let l2 := fresh (dom (<[l1 := zeros]> (heap st))) in
  heap st !! l1 = None /\ heap st !! l2 = None /\ l1 <> l2.
Proof.
  intros l1 l2.
  pose proof (fresh_lookup (heap st)) as H1.
  pose proof (fresh_lookup (<[l1 := zeros]> (heap st))) as H2.
  fold l1 in H1. fold l2 in H2.
  destruct (decide (l1 = l2)) as [Heq | Hne].
  - rewrite <- Heq, lookup_insert_eq in H2. done.
  - rewrite lookup_insert_ne in H2 by done. done.
Qed.

Lemma seeded_refs (st : state) (g : array2) (n : nat) :
  rect g ->
  heap (seeded st g n) !! grid (seeded st g n) = Some g /\
  heap (seeded st g n) !! tempGrid (seeded st g n) = Some zeros /\
  grid (seeded st g n) <> tempGrid (seeded st g n).
Proof.
  intros Hg. destruct (seeded_fresh st) as (_ & _ & Hne). simpl in *.
  rewrite lookup_insert_eq, lookup_insert_ne, lookup_insert_eq by done. done.
Qed.

Lemma seed_cell (st : state) (g : array2) (n : nat) (x y : Z) :
  rect g -> binary g -> 0 <= x < cols -> 0 <= y < rows ->
  exists g' n',
    (let r := random_gt_half (randoms (seeded st g n)) in
     let st' := set_randoms (S (randoms (seeded st g n))) (seeded st g n) in
     if r then
       g ← set2 (deref (heap st') (grid st')) x y (VNum 1);
       Ok (set_heap (<[grid st' := g]> (heap st')) st')
     else Ok st') = Ok (seeded st g' n') /\ rect g' /\ binary g'.
Proof.
  intros Hg Hb Hx Hy. cbn zeta.
  destruct (random_gt_half _).
  - rewrite (deref_lookup _ _ g) by (cbn; apply lookup_insert_eq).
    destruct (rect_set2 g x y (VNum 1) Hg Hx Hy) as (c & Hc & -> & Hg').
    cbn [mbind res_bind]. eexists _, _. split; [| split; [exact Hg' |]].
    + unfold set_heap, seeded. cbn. by rewrite insert_insert_eq.
    + apply binary_insert; auto.
  - exists g, (S n). done.
Qed.

(** [seed] returns: [grid] and [tempGrid] are two new arrays, distinct from
    each other; [tempGrid] is the dead grid; [grid] is a grid of the
    program's dimensions; nothing else changes but the count of random
    numbers. *)
Lemma seed_spec (st : state) :
  exists g n, seed st = Ok (seeded st g n) /\ rect g /\ binary g.
Proof.
  unfold seed. rewrite initArray_zeros. cbn [mbind res_bind alloc].
  cbn [heap set_heap set_grid]. cbn [mbind res_bind].
  rewrite for_lt_qwidth.
  pose (I := fun s : state => exists g n, s = seeded st g n /\ rect g /\ binary g).
  assert (HI : I (seeded st zeros (randoms st))).
  { exists zeros, (randoms st). split; [done |]. split; [apply rect_zeros |].
    apply binary_zeros. }
  assert (Hstart :
    set_tempGrid (fresh (dom (<[fresh (dom (heap st)) := zeros]> (heap st))))
      (set_heap (<[fresh (dom (<[fresh (dom (heap st)) := zeros]> (heap st))) := zeros]>
                   (<[fresh (dom (heap st)) := zeros]> (heap st)))
         (set_grid (fresh (dom (heap st)))
            (set_heap (<[fresh (dom (heap st)) := zeros]> (heap st)) st)))
    = seeded st zeros (randoms st)).
  { unfold seeded, set_tempGrid, set_heap, set_grid. cbn. f_equal.
    destruct (seeded_fresh st) as (_ & _ & Hne).
    rewrite (insert_insert_ne _ (fresh (dom (heap st)))) by done.
    by rewrite insert_insert_eq. }
  rewrite Hstart.
  destruct (for_list_inv I
    (fun x => for_lt qheight (fun y st =>
       let r := random_gt_half (randoms st) in
       let st := set_randoms (S (randoms st)) st in
       if r then
         g ← set2 (deref (heap st) (grid st)) x y (VNum 1);
         Ok (set_heap (<[grid st := g]> (heap st)) st)
       else Ok st))
    (seqZ 0 cols) _ HI) as (s' & Hs' & g & n & -> & Hg & Hb).
  - intros x s Hx%elem_of_seqZ Hs. rewrite for_lt_qheight.
    apply (for_list_inv I); [done |].
    intros y s0 Hy%elem_of_seqZ (g0 & n0 & -> & Hg0 & Hb0).
    destruct (seed_cell st g0 n0 x y Hg0 Hb0) as (g1 & n1 & Hrun & Hg1 & Hb1);
      [lia | lia |].
    exists (seeded st g1 n1). split; [exact Hrun |]. exists g1, n1. done.
  - exists g, n. split; [exact Hs' | done].
Qed.

(** ** The population monitor *)

(** In exact arithmetic the test [cnt / ((width / size) * (height / size))
    < 0.10] compares [cnt] with a tenth of the AREA of the canvas counted in
    cells of [size] x [size] pixels, fractions of a cell included. *)
Lemma collapsed_iff (cnt : Z) :
  0 <= width -> 0 <= height -> 0 <= cnt ->
  collapsed cnt = (size * size * 10 * cnt <? width * height).
Proof.
  intros Hw Hh Hc. unfold collapsed, js_div, qwidth, qheight, size.
  unfold Qeq_bool, Qdiv, Qmult, Qinv. cbn [Qnum Qden inject_Z].
  rewrite !Z.mul_1_r.
  change (0 * Z.pos (1 * 4 * (1 * 4))) with 0.
  destruct (width * height) as [| p | p] eqn:Hp; [| | lia].
  - cbn. symmetry. apply Z.ltb_ge. lia.
  - cbn. unfold Qle_bool. cbn [Qnum Qden].
    change (Z.pos (1 * 4 * (1 * 4))) with 16. rewrite Pos.mul_1_l.
    match goal with
    | |- negb (?a <=? ?b) = (?c <? ?d) =>
        destruct (Z.leb_spec a b), (Z.ltb_spec c d)
    end; cbn; try done; lia.
Qed.

(** ** One call of [update] *)

Lemma update_cycle (fuel : nat) (st : state) :
  update (S fuel) st =
  ('(cnt, st1) ← cycle st;
   if collapsed cnt then populateGrid fuel st1 else Ok st1).
Proof.
  unfold cycle, populateGrid, collapsed. cbn [update].
  destruct (step _) as [s | |]; [| done | done]. cbn [mbind res_bind].
  destruct (drawCells s) as [[cnt s1] | |]; done.
Qed.

Lemma step_ok (st : state) :
  refs_ok st ->
  exists h1 g1, step st = Ok (set_grid (tempGrid st) (set_heap h1 st)) /\
                h1 !! tempGrid st = Some g1 /\ rect g1.
Proof.
  intros Hok. destruct (update_cells_ok st Hok) as (h1 & Hrun & Hok1).
  destruct Hok1 as (_ & g1 & _ & _ & Hg1 & Hr1). cbn in Hg1.
  exists h1, g1. unfold step. rewrite Hrun. done.
Qed.

Lemma cycle_ok (st : state) :
  refs_ok st ->
  exists h1 g1 tr,
    step (log prelude st) = Ok (set_grid (tempGrid st) (set_heap h1 (log prelude st))) /\
    h1 !! tempGrid st = Some g1 /\ rect g1 /\ no_clear tr /\
    cycle st = Ok (live g1, log tr (set_grid (tempGrid st) (set_heap h1 (log prelude st)))).
Proof.
  intros Hok.
  assert (Hok0 : refs_ok (log prelude st)) by exact Hok.
  destruct (step_ok _ Hok0) as (h1 & g1 & Hstep & Hg1 & Hr1). cbn in Hg1.
  destruct (drawCells_spec (set_grid (tempGrid st) (set_heap h1 (log prelude st))) g1)
    as (tr & Hdraw & Htr); [exact Hg1 | exact Hr1 |].
  exists h1, g1, tr. split; [exact Hstep |]. repeat (split; [done |]).
  unfold cycle.
  change (draw 0 0 Black width (emit (ClearRect 0 0 width height) st))
    with (log prelude st).
  rewrite Hstep. exact Hdraw.
Qed.

Lemma cycles_cycled (st : state) (h1 : gmap loc array2) (tr : list event) :
  no_clear tr -> cycles (cycled st h1 tr) = S (cycles st).
Proof.
  intros Htr. unfold cycled. rewrite cycles_log, Htr. done.
Qed.

Lemma refs_ok_cycled (st : state) (h1 : gmap loc array2) (tr : list event) (g1 : array2) :
  h1 !! tempGrid st = Some g1 -> rect g1 -> refs_ok (cycled st h1 tr).
Proof. intros Hg1 Hr1. exists g1, g1. done. Qed.

Lemma refs_ok_seeded (st : state) (g : array2) (n : nat) :
  rect g -> refs_ok (seeded st g n).
Proof.
  intros Hg. destruct (seeded_refs st g n Hg) as (H1 & H2 & _).
  exists g, zeros. auto using rect_zeros.
Qed.

(** A call of [update] that returns has cleared the canvas at least once,
    has left [grid] and [tempGrid] the SAME array, and has kept the clock of
    the frame callback. *)
Lemma update_returns (fuel : nat) (st st' : state) :
  refs_ok st -> update fuel st = Ok st' ->
  (S (cycles st) <= cycles st')%nat /\ grid st' = tempGrid st' /\ refs_ok st' /\
  startTime st' = startTime st /\ drawCount st' = drawCount st.
Proof.
  revert st. induction fuel as [| fuel IH]; intros st Hok; [done |].
  rewrite update_cycle.
  destruct (cycle_ok st Hok) as (h1 & g1 & tr & _ & Hg1 & Hr1 & Htr & ->).
  fold (cycled st h1 tr). cbn [mbind res_bind].
  pose proof (cycles_cycled st h1 tr Htr) as Hcyc.
  destruct (collapsed (live g1)).
  - unfold populateGrid.
    destruct (seed_spec (cycled st h1 tr)) as (g2 & n & -> & Hr2 & _). cbn [mbind res_bind].
    intros Hrun. apply IH in Hrun; [| by apply refs_ok_seeded].
    destruct Hrun as (Hc & Ha & Hok' & Hs & Hd). repeat split; try done.
    change (cycles (seeded (cycled st h1 tr) g2 n)) with (cycles (cycled st h1 tr)) in Hc.
    lia.
  - intros [= <-]. repeat split; try done.
    + lia.
    + by eapply refs_ok_cycled.
Qed.

(** ** The ranges of the loops *)

Lemma cols_ceiling : size * cols - size < width <= size * cols.
Proof. unfold cols, size. Z.div_mod_to_equations. lia. Qed.

Lemma rows_ceiling : size * rows - size < height <= size * rows.
Proof. unfold rows, size. Z.div_mod_to_equations. lia. Qed.

Lemma cols_floor : floor_cols <= cols /\ (floor_cols = cols <-> (size | width)).
Proof.
  unfold floor_cols, cols, size. split; [Z.div_mod_to_equations; lia |].
  split.
  - intros H. exists (width / 4). Z.div_mod_to_equations. lia.
  - intros [k ->]. Z.div_mod_to_equations. lia.
Qed.

Lemma rows_floor : floor_rows <= rows /\ (floor_rows = rows <-> (size | height)).
Proof.
  unfold floor_rows, rows, size. split; [Z.div_mod_to_equations; lia |].
  split.
  - intros H. exists (height / 4). Z.div_mod_to_equations. lia.
  - intros [k ->]. Z.div_mod_to_equations. lia.
Qed.

(** A quantity that every returning round raises by [k]. *)
Lemma for_list_measure {S} (m : S -> nat) (k : nat) (body : Z -> S -> res S)
    (xs : list Z) (s s' : S) :
  (forall x a b, x ∈ xs -> body x a = Ok b -> m b = (m a + k)%nat) ->
  for_list xs body s = Ok s' -> m s' = (m s + k * length xs)%nat.
Proof.
  revert s. induction xs as [| x xs IH]; intros s Hbody; simpl.
  - intros [= <-]. lia.
  - destruct (body x s) as [s1 | |] eqn:E; simpl; [| done | done].
    intros Hrun. rewrite (IH s1); [| | done].
    + rewrite (Hbody x s s1); [lia | left | done].
    + intros x' a b Hx'. apply Hbody. by right.
Qed.

(** [seed] asks for one random number per cell. *)
Lemma seed_randoms (st st' : state) :
  seed st = Ok st' ->
  randoms st' = (randoms st + Z.to_nat cols * Z.to_nat rows)%nat.
Proof.
  unfold seed. rewrite initArray_zeros. cbn [mbind res_bind alloc].
  cbn [heap set_heap set_grid]. cbn [mbind res_bind].
  rewrite for_lt_qwidth. intros Hrun.
  apply (for_list_measure randoms (Z.to_nat rows)) in Hrun.
  - rewrite Hrun, length_seqZ. cbn. lia.
  - intros x a b _. rewrite for_lt_qheight. intros Hcol.
    apply (for_list_measure randoms 1) in Hcol.
    + rewrite Hcol, length_seqZ. lia.
    + intros y a' b' _. cbn zeta. destruct (random_gt_half _).
      * destruct (set2 _ _ _ _); cbn [mbind res_bind]; [| done | done].
        intros [= <-]. cbn. lia.
      * intros [= <-]. cbn. lia.
Qed.

Lemma for_list_ext {S} (body body' : Z -> S -> res S) (xs : list Z) (s : S) :
  (forall x s, body x s = body' x s) -> for_list xs body s = for_list xs body' s.
Proof.
  intros Hext. revert s. induction xs as [| x xs IH]; intros s; simpl; [done |].
  rewrite Hext. destruct (body' x s); simpl; auto.
Qed.

Lemma nested_loops {S} (body : Z -> Z -> S -> res S) (s : S) :
  for_lt qwidth (fun x => for_lt qheight (fun y => body x y)) s
  = for_list (seqZ 0 cols) (fun x => for_list (seqZ 0 rows) (fun y => body x y)) s.
Proof.
  rewrite for_lt_qwidth. apply for_list_ext. intros x s'. apply for_lt_qheight.
Qed.

(** C7 (amended). Every loop of the program -- creating a grid, stepping,
    counting with drawing, seeding -- goes through exactly the coordinates
    [0 <= x < cols], [0 <= y < rows], where [cols] and [rows] are the
    quotients [width / size] and [height / size] rounded UP; they are the
    quotients rounded down exactly when [size] divides the canvas size. *)
Theorem loops_range_ceiling :
  (size * cols - size < width <= size * cols) /\
  (size * rows - size < height <= size * rows) /\
  (floor_cols <= cols /\ (floor_cols = cols <-> (size | width))) /\
  (floor_rows <= rows /\ (floor_rows = rows <-> (size | height))) /\
  initArray qwidth qheight = Ok zeros /\
  (forall st,
     update_cells st
     = for_list (seqZ 0 cols)
         (fun x => for_list (seqZ 0 rows) (fun y => update_cell_at x y)) st) /\
  (forall st,
     drawCells st
     = for_list (seqZ 0 cols)
         (fun x => for_list (seqZ 0 rows) (fun y '(cnt, st) =>
            c ← get2 (deref (heap st) (grid st)) x y;
            if truthy c then
              Ok (cnt + 1, draw (x * size) (y * size) (Rgb x y 100) size st)
            else Ok (cnt, st)))
         (0, st)) /\
  (forall st, exists st', seed st = Ok st' /\
     randoms st' = (randoms st + Z.to_nat cols * Z.to_nat rows)%nat).
Proof.
  split; [apply cols_ceiling |]. split; [apply rows_ceiling |].
  split; [apply cols_floor |]. split; [apply rows_floor |].
  split; [apply initArray_zeros |].
  split; [intros st; apply nested_loops |].
  split.
  - intros st. unfold drawCells.
    apply (nested_loops (fun x y '(cnt, st) =>
            c ← get2 (deref (heap st) (grid st)) x y;
            if truthy c then
              Ok (cnt + 1, draw (x * size) (y * size) (Rgb x y 100) size st)
            else Ok (cnt, st))).
  - intros st. destruct (seed_spec st) as (g & n & Hrun & _ & _).
    eexists. split; [exact Hrun |]. by apply seed_randoms.
Qed.

(** ** The population monitor, the reseed and the frame callback *)

Lemma divides_area :
  (size | width) -> (size | height) -> width * height = size * size * (cols * rows).
Proof.
  intros Hw Hh.
  destruct cols_floor as [_ [_ Hc]]. destruct rows_floor as [_ [_ Hr]].
  specialize (Hc Hw). specialize (Hr Hh).
  destruct Hw as [a Ha]. destruct Hh as [b Hb].
  unfold floor_cols in Hc. unfold floor_rows in Hr.
  rewrite <- Hc, <- Hr. rewrite Ha, Hb. unfold size.
  rewrite !Z.div_mul by lia. lia.
Qed.

Lemma populateGrid_seeded (fuel : nat) (st : state) :
  exists g n, seed st = Ok (seeded st g n) /\ rect g /\
              populateGrid fuel st = update fuel (seeded st g n).
Proof.
  destruct (seed_spec st) as (g & n & Hrun & Hg & _). exists g, n.
  split; [done |]. split; [done |]. unfold populateGrid. by rewrite Hrun.
Qed.

(** C5 (amended). After the step of every call of [update], with [live g1]
    the number of live cells of the new grid: the reseed is triggered if and
    only if [live g1 / ((width / size) * (height / size)) < 0.10] with the
    quotients NOT rounded, that is [size * size * 10 * live g1 < width *
    height]; this is [live g1 / (cols * rows) < 0.10] when [size] divides
    [width] and [height]. When it is not triggered [update] returns the
    stepped state with only the picture added; when it is triggered the
    stepped grid is left behind: [grid] and [tempGrid] become new arrays,
    seeded, and [update] goes on from them. *)
Theorem monitor_reseeds (fuel : nat) (st : state) :
  0 <= width -> 0 <= height -> refs_ok st ->
  exists h1 g1 tr,
    let stepped := set_grid (tempGrid st) (set_heap h1 (log prelude st)) in
    step (log prelude st) = Ok stepped /\
    heap stepped !! grid stepped = Some g1 /\
    cycle st = Ok (live g1, log tr stepped) /\
    (collapsed (live g1) = true <-> size * size * 10 * live g1 < width * height) /\
    ((size | width) -> (size | height) ->
       (collapsed (live g1) = true <-> 10 * live g1 < cols * rows)) /\
    (collapsed (live g1) = false -> update (S fuel) st = Ok (log tr stepped)) /\
    (collapsed (live g1) = true ->
       exists g2 n,
         seed (log tr stepped) = Ok (seeded (log tr stepped) g2 n) /\
         heap stepped !! grid (seeded (log tr stepped) g2 n) = None /\
         heap stepped !! tempGrid (seeded (log tr stepped) g2 n) = None /\
         grid (seeded (log tr stepped) g2 n) <> tempGrid (seeded (log tr stepped) g2 n) /\
         update (S fuel) st = update fuel (seeded (log tr stepped) g2 n)).
Proof.
  intros Hw Hh Hok.
  destruct (cycle_ok st Hok) as (h1 & g1 & tr & Hstep & Hg1 & Hr1 & Htr & Hcyc).
  exists h1, g1, tr. cbn zeta.
  split; [exact Hstep |]. split; [exact Hg1 |]. split; [exact Hcyc |].
  assert (Hiff : collapsed (live g1) = true <->
                 size * size * 10 * live g1 < width * height).
  { rewrite collapsed_iff by (try done; apply live_nonneg). apply Z.ltb_lt. }
  split; [exact Hiff |]. split; [| split].
  - intros Hdw Hdh. rewrite Hiff, divides_area by done. unfold size. lia.
  - intros Hno. rewrite update_cycle, Hcyc. cbn [mbind res_bind]. by rewrite Hno.
  - intros Hyes.
    destruct (populateGrid_seeded fuel
                (log tr (set_grid (tempGrid st) (set_heap h1 (log prelude st)))))
      as (g2 & n & Hseed & Hr2 & Hpop).
    exists g2, n. split; [exact Hseed |].
    destruct (seeded_fresh (log tr (set_grid (tempGrid st) (set_heap h1 (log prelude st)))))
      as (Hf1 & Hf2 & Hne).
    split; [exact Hf1 |]. split; [exact Hf2 |]. split; [exact Hne |].
    rewrite update_cycle, Hcyc. cbn [mbind res_bind]. by rewrite Hyes.
Qed.

(** A call of [update] whose monitor fires seeds new grids and runs a second
    cycle on them; whether it goes on depends on the count of that cycle. *)
Lemma update_reseed (fuel : nat) (st0 : state) (cnt : Z) (st1 : state) :
  refs_ok st0 -> cycle st0 = Ok (cnt, st1) -> collapsed cnt = true ->
  exists g2 n2 cnt2 st3,
    seed st1 = Ok (seeded st1 g2 n2) /\
    cycle (seeded st1 g2 n2) = Ok (cnt2, st3) /\
    cycles st3 = (cycles st0 + 2)%nat /\ refs_ok st3 /\
    startTime st3 = startTime st0 /\
    update (S (S fuel)) st0 = (if collapsed cnt2 then populateGrid fuel st3 else Ok st3).
Proof.
  intros Hok Hcyc Hyes.
  destruct (cycle_ok st0 Hok) as (h1 & g1 & tr & _ & Hg1 & Hr1 & Htr & Hcyc').
  rewrite Hcyc' in Hcyc. injection Hcyc as <- <-.
  fold (cycled st0 h1 tr) in *.
  destruct (populateGrid_seeded (S fuel) (cycled st0 h1 tr)) as (g2 & n2 & Hseed & Hr2 & Hpop).
  pose proof (refs_ok_seeded (cycled st0 h1 tr) g2 n2 Hr2) as Hok2.
  destruct (cycle_ok _ Hok2) as (h3 & g3 & tr3 & _ & Hg3 & Hr3 & Htr3 & Hcyc3).
  fold (cycled (seeded (cycled st0 h1 tr) g2 n2) h3 tr3) in *.
  exists g2, n2, (live g3), (cycled (seeded (cycled st0 h1 tr) g2 n2) h3 tr3).
  split; [exact Hseed |]. split; [exact Hcyc3 |].
  split.
  { rewrite cycles_cycled by done.
    change (cycles (seeded (cycled st0 h1 tr) g2 n2)) with (cycles (cycled st0 h1 tr)).
    rewrite cycles_cycled by done. lia. }
  split; [by eapply refs_ok_cycled |]. split; [done |].
  rewrite update_cycle, Hcyc'. cbn [mbind res_bind]. rewrite Hyes, Hpop.
  rewrite update_cycle, Hcyc3. done.
Qed.

(** [t - t] is [0], or NaN when [t] is NaN or infinite: never more than
    [stepInMs]. *)
Lemma due_self (t : float) : due t t = false.
Proof.
  unfold due. rewrite ltb_spec, sub_spec.
  change (Prim2SF stepInMs) with (S754_finite false 8796093022208000 (-44)).
  destruct (Prim2SF t) as [[] | [] | | s m e]; try reflexivity.
  unfold SF64sub, SFsub. cbv zeta. rewrite Z.sub_diag. reflexivity.
Qed.

Lemma start_first (fuel : nat) (timestamp : float) (st : state) :
  startTime st = None ->
  start fuel timestamp st
  = Ok (emit RequestAnimationFrame (set_startTime (Some timestamp) st)).
Proof.
  intros Hnone. unfold start. rewrite Hnone.
  cbn [startTime set_startTime default from_option id].
  pose proof (due_self timestamp) as Hself. unfold due in Hself.
  rewrite Hself. done.
Qed.

Lemma start_wait (fuel : nat) (timestamp t0 : float) (st : state) :
  startTime st = Some t0 -> due t0 timestamp = false ->
  start fuel timestamp st = Ok (emit RequestAnimationFrame st).
Proof.
  intros Hsome Hle. unfold start. rewrite Hsome. cbn zeta. rewrite Hsome.
  cbn [default from_option id]. unfold due in Hle. rewrite Hle. done.
Qed.

Lemma start_due (fuel : nat) (timestamp t0 : float) (st : state) :
  startTime st = Some t0 -> due t0 timestamp = true ->
  start fuel timestamp st
  = (st' ← update fuel (stamped timestamp (PrimFloat.sub timestamp t0) st);
     Ok (emit RequestAnimationFrame st')).
Proof.
  intros Hsome Hgt. unfold start. rewrite Hsome. cbn zeta. rewrite Hsome.
  cbn [default from_option id]. unfold due in Hgt. rewrite Hgt. done.
Qed.

(** C6 (amended). For every timestamp a browser can pass, a binary64 number
    with or without a fraction: the first frame callback records the
    timestamp and does no step. A later one calls [update] once if
    [timestamp - startTime > stepInMs] in binary64 arithmetic (the test
    [due]), having reset [startTime], and otherwise does no step. That
    call of [update] runs exactly one cycle (step and monitor) when the
    monitor does not fire; when it fires the call goes on into
    [populateGrid], which runs a second cycle, and a third if that one
    collapses too. Every callback that returns asks for the next frame. *)
Theorem start_spec (fuel : nat) (timestamp : float) (st : state) :
  refs_ok st ->
  (startTime st = None ->
     start fuel timestamp st
     = Ok (emit RequestAnimationFrame (set_startTime (Some timestamp) st))) /\
  (forall t0, startTime st = Some t0 -> due t0 timestamp = false ->
     start fuel timestamp st = Ok (emit RequestAnimationFrame st)) /\
  (forall t0, startTime st = Some t0 -> due t0 timestamp = true ->
     exists cnt st1,
       cycle (stamped timestamp (PrimFloat.sub timestamp t0) st) = Ok (cnt, st1) /\
       cycles st1 = S (cycles st) /\ startTime st1 = Some timestamp /\
       (collapsed cnt = false ->
          start (S fuel) timestamp st = Ok (emit RequestAnimationFrame st1)) /\
       (collapsed cnt = true ->
          start (S fuel) timestamp st
          = (st' ← populateGrid fuel st1; Ok (emit RequestAnimationFrame st')) /\
          (forall st', start (S fuel) timestamp st = Ok st' ->
             (cycles st + 2 <= cycles st')%nat /\ startTime st' = Some timestamp /\
             exists tr', trace st' = RequestAnimationFrame :: tr') /\
          exists g2 n2 cnt2 st3,
            seed st1 = Ok (seeded st1 g2 n2) /\
            cycle (seeded st1 g2 n2) = Ok (cnt2, st3) /\
            cycles st3 = (cycles st + 2)%nat /\ startTime st3 = Some timestamp /\
            (collapsed cnt2 = false ->
               start (S (S fuel)) timestamp st = Ok (emit RequestAnimationFrame st3)))).
Proof.
  intros Hok. split; [apply start_first |].
  split; [intros t0; apply start_wait |].
  intros t0 Hsome Hgt.
  set (st0 := stamped timestamp (PrimFloat.sub timestamp t0) st).
  assert (Hok0 : refs_ok st0) by exact Hok.
  destruct (cycle_ok st0 Hok0) as (h1 & g1 & tr & _ & Hg1 & Hr1 & Htr & Hcyc).
  fold (cycled st0 h1 tr) in Hcyc.
  exists (live g1), (cycled st0 h1 tr).
  split; [exact Hcyc |].
  split; [by rewrite cycles_cycled |]. split; [done |].
  rewrite (start_due _ _ t0) by done. fold st0.
  rewrite update_cycle, Hcyc. cbn [mbind res_bind].
  split.
  - intros Hno. by rewrite Hno.
  - intros Hyes. rewrite Hyes. split; [done |]. split; cycle 1.
    { destruct (update_reseed fuel st0 (live g1) (cycled st0 h1 tr) Hok0 Hcyc Hyes)
        as (g2 & n2 & cnt2 & st3 & H1 & H2 & H3 & _ & H4 & H5).
      exists g2, n2, cnt2, st3.
      split; [exact H1 |]. split; [exact H2 |]. split; [exact H3 |].
      split; [exact H4 |]. intros Hno.
      rewrite (start_due _ _ t0) by done. fold st0. by rewrite H5, Hno. }
    intros st'.
    destruct (populateGrid_seeded fuel (cycled st0 h1 tr)) as (g2 & n & _ & Hr2 & ->).
    destruct (update fuel (seeded (cycled st0 h1 tr) g2 n)) as [s2 | |] eqn:Hrun;
      cbn [mbind res_bind]; [| done | done].
    intros [= <-].
    apply update_returns in Hrun as (Hc & _ & _ & Hs & _); [| by apply refs_ok_seeded].
    change (cycles (seeded (cycled st0 h1 tr) g2 n)) with (cycles (cycled st0 h1 tr)) in Hc.
    rewrite (cycles_cycled st0 h1 tr Htr) in Hc.
    change (cycles st0) with (cycles st) in Hc.
    split; [change (cycles (emit RequestAnimationFrame s2)) with (cycles s2); lia |].
    split; [exact Hs | by eexists].
Qed.

(** ** Tests for the predicates on grids *)

Lemma rectb_sound (a : array2) : rectb a = true -> rect a.
Proof.
  unfold rectb. rewrite andb_true_iff, Nat.eqb_eq, forallb_forall.
  intros [Hlen Hall]. split; [done |].
  intros o Ho%list_elem_of_In. specialize (Hall o Ho).
  destruct o as [c |]; [| done]. exists c. by apply Nat.eqb_eq in Hall.
Qed.

Lemma binaryb_sound (a : array2) : rect a -> binaryb a = true -> binary a.
Proof.
  unfold binaryb. rewrite forallb_forall. intros Hr Hall x y v Hget Hx Hy.
  destruct (rect_column a x Hr Hx) as (c & Hc & Hlen).
  destruct (cellValue_column a x y c Hc) as [Hget' _].
  rewrite Hget' in Hget. injection Hget as <-.
  apply column_at_Some in Hc as [_ Hc].
  specialize (Hall (Some c) (proj1 (list_elem_of_In _ _) (list_elem_of_lookup_2 _ _ _ Hc))).
  cbn in Hall. rewrite forallb_forall in Hall.
  destruct (lookup_lt_is_Some_2 c (Z.to_nat y)) as [v Hv]; [lia |].
  rewrite lookupZ_nat, Hv by lia. cbn.
  specialize (Hall v (proj1 (list_elem_of_In _ _) (list_elem_of_lookup_2 _ _ _ Hv))).
  destruct v as [| [| [| |] |]]; try done; auto.
Qed.

(** ** The two ways [update] is called *)

(** From [populateGrid] the arrays are distinct, and the step is the
    synchronous step of the specification. *)
Lemma step_separate (st : state) (g t : array2) :
  grid st <> tempGrid st ->
  heap st !! grid st = Some g -> rect g -> binary g ->
  heap st !! tempGrid st = Some t -> rect t ->
  step st = Ok (set_grid (tempGrid st)
                  (set_heap (<[tempGrid st := spec_step g]> (heap st)) st)).
Proof.
  intros Hne Hg Hrg Hbg Ht Hrt. unfold step.
  rewrite (update_cells_separate st g Hne Hg Hrg t Ht Hrt).
  by rewrite image_spec_step.
Qed.

(** From [start] they are one array: a cell is written into the grid that
    the cells after it read. *)
Lemma update_cell_at_in_place (st : state) (a : array2) (x y : Z) :
  grid st = tempGrid st -> heap st !! grid st = Some a -> rect a ->
  0 <= x < cols -> 0 <= y < rows ->
  exists c,
    column_at a x = Some c /\
    update_cell_at x y st
    = Ok (set_heap
            (<[grid st := <[Z.to_nat x := Some (<[Z.to_nat y := next_cell a x y]> c)]> a]>
               (heap st)) st).
Proof.
  intros Heq Ha Hr Hx Hy.
  destruct (rect_set2 a x y (next_cell a x y) Hr Hx Hy) as (c & Hc & Hset & _).
  exists c. split; [done |].
  rewrite (update_cell_at_eq st x y a a
             (<[Z.to_nat x := Some (<[Z.to_nat y := next_cell a x y]> c)]> a)
             (next_cell a x y) Ha); try done.
  - by rewrite Heq.
  - by rewrite <- Heq.
  - by apply updateCell_ok.
Qed.

Lemma start_keeps (fuel : nat) (timestamp : float) (st st' : state) :
  refs_ok st -> grid st = tempGrid st -> start fuel timestamp st = Ok st' ->
  refs_ok st' /\ grid st' = tempGrid st'.
Proof.
  intros Hok Heq. unfold start.
  set (st0 := match startTime st with
              | Some _ => st
              | None => set_startTime (Some timestamp) st
              end).
  assert (Hok0 : refs_ok st0 /\ grid st0 = tempGrid st0)
    by (unfold st0; destruct (startTime st); done).
  cbn zeta. destruct (PrimFloat.ltb _ _).
  - destruct (update fuel _) as [s | |] eqn:Hrun; cbn [mbind res_bind]; [| done | done].
    intros [= <-]. apply update_returns in Hrun as (_ & Ha & Hok' & _); [done |].
    apply Hok0.
  - cbn [mbind res_bind]. intros [= <-]. exact Hok0.
Qed.

(** After the script's [populateGrid()] the two variables hold the same
    array in every state the program reaches, so every step that a frame
    callback runs is done in place. *)
Lemma frames_aliased (fuel : nat) (ts : list float) (st0 st : state) :
  boot fuel = Ok st0 -> frames fuel ts st0 = Ok st ->
  refs_ok st /\ grid st = tempGrid st.
Proof.
  intros Hboot. unfold boot in Hboot.
  destruct (populateGrid_seeded fuel initial) as (g & n & _ & Hg & Hpop).
  rewrite Hpop in Hboot.
  destruct (update fuel _) as [s | |] eqn:Hrun; cbn [mbind res_bind] in Hboot;
    [| done | done].
  injection Hboot as <-.
  apply update_returns in Hrun as (_ & Ha & Hok & _); [| by apply refs_ok_seeded].
  assert (Hinv : refs_ok (emit RequestAnimationFrame s) /\
                 grid (emit RequestAnimationFrame s) = tempGrid (emit RequestAnimationFrame s))
    by done.
  revert Hinv. generalize (emit RequestAnimationFrame s). clear.
  induction ts as [| t ts IH]; intros s [Hok Ha]; cbn [frames].
  - by intros [= <-].
  - destruct (start fuel t s) as [s1 | |] eqn:Hstart; cbn [mbind res_bind]; [| done | done].
    apply IH. by eapply start_keeps.
Qed.

(** ** Every grid the program reaches holds zeros and ones *)

Lemma grids_ok_refs_ok (st : state) : grids_ok st -> refs_ok st.
Proof. intros (g & t & Hg & Hrg & _ & Ht & Hrt & _). by exists g, t. Qed.

Lemma update_cell_at_binary (st : state) (x y : Z) :
  grids_ok st -> 0 <= x < cols -> 0 <= y < rows ->
  exists h', update_cell_at x y st = Ok (set_heap h' st) /\ grids_ok (set_heap h' st).
Proof.
  intros (g & t & Hg & Hrg & Hbg & Ht & Hrt & Hbt) Hx Hy.
  destruct (rect_set2 t x y (next_cell g x y) Hrt Hx Hy) as (c & Hc & Hset & Hrt').
  rewrite (update_cell_at_eq st x y g t _ (next_cell g x y) Hg Ht
             (updateCell_ok g x y Hrg Hx) Hset).
  eexists. split; [done |].
  assert (Hbt' : binary (<[Z.to_nat x := Some (<[Z.to_nat y := next_cell g x y]> c)]> t))
    by (apply binary_insert; auto using next_cell_binary).
  destruct (decide (grid st = tempGrid st)) as [Heq | Hne].
  - eexists _, _. cbn. rewrite Heq, lookup_insert_eq. done.
  - exists g. eexists. cbn. rewrite lookup_insert_ne by done.
    rewrite lookup_insert_eq. done.
Qed.

Lemma update_cells_binary (st : state) :
  grids_ok st ->
  exists h', update_cells st = Ok (set_heap h' st) /\ grids_ok (set_heap h' st).
Proof.
  intros Hok. unfold update_cells. rewrite nested_loops.
  pose (I := fun s : state => exists h', s = set_heap h' st /\ grids_ok s).
  assert (HI : I st) by (exists (heap st); by rewrite set_heap_id).
  destruct (for_list_inv I
              (fun x => for_list (seqZ 0 rows) (fun y => update_cell_at x y))
              (seqZ 0 cols) st HI) as (s' & Hs' & h' & -> & Hok').
  - intros x s Hx%elem_of_seqZ Hs.
    apply (for_list_inv I); [done |].
    intros y s0 Hy%elem_of_seqZ (h0 & -> & Hok0).
    destruct (update_cell_at_binary (set_heap h0 st) x y Hok0) as (h1 & Hupd & Hok1);
      [lia | lia |].
    exists (set_heap h1 st). split; [done |]. exists h1. done.
  - eauto.
Qed.

Lemma cycle_binary (st : state) (cnt : Z) (st1 : state) :
  grids_ok st -> cycle st = Ok (cnt, st1) -> grids_ok st1.
Proof.
  intros Hok Hcyc.
  destruct (cycle_ok st (grids_ok_refs_ok st Hok))
    as (h1 & g1 & tr & Hstep & Hg1 & _ & _ & Hcyc').
  rewrite Hcyc' in Hcyc. injection Hcyc as _ <-.
  assert (Hok0 : grids_ok (log prelude st)) by exact Hok.
  destruct (update_cells_binary _ Hok0) as (h2 & Hrun & _ & t & _ & _ & _ & Ht & Hrt & Hbt).
  unfold step in Hstep. rewrite Hrun in Hstep. cbn in Hstep, Ht.
  injection Hstep as <-. exists t, t. done.
Qed.

Lemma grids_ok_seeded (st : state) (g : array2) (n : nat) :
  rect g -> binary g -> grids_ok (seeded st g n).
Proof.
  intros Hg Hb. destruct (seeded_refs st g n Hg) as (H1 & H2 & _).
  exists g, zeros. split; [exact H1 |]. split; [exact Hg |]. split; [exact Hb |].
  split; [exact H2 |]. split; [apply rect_zeros | apply binary_zeros].
Qed.

Lemma update_binary (fuel : nat) (st st' : state) :
  grids_ok st -> update fuel st = Ok st' -> grids_ok st'.
Proof.
  revert st. induction fuel as [| fuel IH]; intros st Hok; [done |].
  rewrite update_cycle.
  destruct (cycle st) as [[cnt st1] | |] eqn:Hcyc; cbn [mbind res_bind]; [| done | done].
  pose proof (cycle_binary st cnt st1 Hok Hcyc) as Hok1.
  destruct (collapsed cnt); [| by intros [= <-]].
  unfold populateGrid. destruct (seed_spec st1) as (g2 & n & -> & Hr2 & Hb2).
  cbn [mbind res_bind]. apply IH. by apply grids_ok_seeded.
Qed.

Lemma start_binary (fuel : nat) (timestamp : float) (st st' : state) :
  grids_ok st -> start fuel timestamp st = Ok st' -> grids_ok st'.
Proof.
  intros Hok. unfold start.
  set (st0 := match startTime st with
              | Some _ => st
              | None => set_startTime (Some timestamp) st
              end).
  assert (Hok0 : grids_ok st0) by (unfold st0; destruct (startTime st); done).
  cbn zeta. destruct (PrimFloat.ltb _ _).
  - destruct (update fuel _) as [s | |] eqn:Hrun; cbn [mbind res_bind]; [| done | done].
    intros [= <-]. by apply update_binary in Hrun.
  - cbn [mbind res_bind]. by intros [= <-].
Qed.

(** In every state the program reaches, [grid] is a grid of the program's
    dimensions with cells 0 or 1: the grids of C3 and C4. *)
Lemma reachable_grids_ok (fuel : nat) (ts : list float) (st0 st : state) :
  boot fuel = Ok st0 -> frames fuel ts st0 = Ok st -> grids_ok st.
Proof.
  intros Hboot. unfold boot, populateGrid in Hboot.
  destruct (seed_spec initial) as (g & n & Hseed & Hg & Hb).
  rewrite Hseed in Hboot. cbn [mbind res_bind] in Hboot.
  destruct (update fuel _) as [s | |] eqn:Hrun; cbn [mbind res_bind] in Hboot;
    [| done | done].
  injection Hboot as <-.
  apply update_binary in Hrun; [| by apply grids_ok_seeded].
  assert (Hinv : grids_ok (emit RequestAnimationFrame s)) by exact Hrun.
  revert Hinv. generalize (emit RequestAnimationFrame s). clear.
  induction ts as [| t ts IH]; intros s Hok; cbn [frames].
  - by intros [= <-].
  - destruct (start fuel t s) as [s1 | |] eqn:Hstart; cbn [mbind res_bind]; [| done | done].
    apply IH. by eapply start_binary.
Qed.

(** The step of the [update] that [populateGrid] calls is the synchronous
    step of the specification, on the grid just seeded. *)
Lemma populateGrid_step_synchronous (st : state) :
  exists g n,
    seed st = Ok (seeded st g n) /\ rect g /\ binary g /\
    step (seeded st g n)
    = Ok (set_grid (tempGrid (seeded st g n))
            (set_heap (<[tempGrid (seeded st g n) := spec_step g]> (heap (seeded st g n)))
               (seeded st g n))).
Proof.
  destruct (seed_spec st) as (g & n & Hseed & Hg & Hb). exists g, n.
  split; [done |]. split; [done |]. split; [done |].
  destruct (seeded_refs st g n Hg) as (Hgrid & Htemp & Hne).
  apply (step_separate _ g zeros); auto using rect_zeros.
Qed.

(** * Further properties of the code *)

(** ** [initArray] on any pair of numbers *)

(** X1. [initArray(w, h)] never faults and returns [ceil w] columns of
    [ceil h] zeros each, for every pair of numbers; with [w <= 0] it is the
    empty array, with [h <= 0] every column is empty. *)
Theorem initArray_grid (w h : Q) :
  initArray w h
  = Ok (replicate (Z.to_nat (Qceiling w))
          (Some (replicate (Z.to_nat (Qceiling h)) (VNum 0)))) /\
  ((w <= 0)%Q -> initArray w h = Ok []) /\
  ((h <= 0)%Q -> initArray w h = Ok (replicate (Z.to_nat (Qceiling w)) (Some []))).
Proof.
  assert (Hgen : initArray w h
                 = Ok (replicate (Z.to_nat (Qceiling w))
                         (Some (replicate (Z.to_nat (Qceiling h)) (VNum 0))))).
  { unfold initArray. by rewrite for_lt_fold, (seqZ_to_nat 0 (Qceiling w)), init_columns. }
  assert (Hneg : forall q : Q, (q <= 0)%Q -> Z.to_nat (Qceiling q) = 0%nat).
  { intros q Hq. apply Qceiling_resp_le in Hq. change (Qceiling 0) with 0 in Hq. lia. }
  split; [exact Hgen |]. split; intros Hle; rewrite Hgen, (Hneg _ Hle); done.
Qed.

(** ** No uncaught fault *)

Lemma update_no_throw (fuel : nat) (st : state) :
  refs_ok st -> update fuel st <> Throw.
Proof.
  revert st. induction fuel as [| fuel IH]; intros st Hok; [done |].
  rewrite update_cycle.
  destruct (cycle_ok st Hok) as (h1 & g1 & tr & _ & Hg1 & Hr1 & Htr & ->).
  cbn [mbind res_bind]. destruct (collapsed (live g1)); [| done].
  destruct (populateGrid_seeded fuel
              (log tr (set_grid (tempGrid st) (set_heap h1 (log prelude st)))))
    as (g2 & n & _ & Hr2 & ->).
  apply IH. by apply refs_ok_seeded.
Qed.

Lemma start_refs_ok (fuel : nat) (timestamp : float) (st st' : state) :
  refs_ok st -> start fuel timestamp st = Ok st' -> refs_ok st'.
Proof.
  intros Hok. unfold start.
  set (st0 := match startTime st with
              | Some _ => st
              | None => set_startTime (Some timestamp) st
              end).
  assert (Hok0 : refs_ok st0) by (unfold st0; destruct (startTime st); done).
  cbn zeta. destruct (PrimFloat.ltb _ _).
  - destruct (update fuel _) as [s | |] eqn:Hrun; cbn [mbind res_bind]; [| done | done].
    intros [= <-]. by apply update_returns in Hrun as (_ & _ & Hok' & _).
  - cbn [mbind res_bind]. by intros [= <-].
Qed.

Lemma start_no_throw (fuel : nat) (timestamp : float) (st : state) :
  refs_ok st -> start fuel timestamp st <> Throw.
Proof.
  intros Hok. unfold start.
  set (st0 := match startTime st with
              | Some _ => st
              | None => set_startTime (Some timestamp) st
              end).
  assert (Hok0 : refs_ok st0) by (unfold st0; destruct (startTime st); done).
  cbn zeta. destruct (PrimFloat.ltb _ _); [| done].
  match goal with |- context [update fuel ?s] =>
    pose proof (update_no_throw fuel s Hok0) as Hno; destruct (update fuel s) end;
    done.
Qed.

Lemma frames_no_throw (fuel : nat) (ts : list float) (st : state) :
  refs_ok st -> frames fuel ts st <> Throw.
Proof.
  revert st. induction ts as [| t ts IH]; intros st Hok; cbn [frames]; [done |].
  pose proof (start_no_throw fuel t st Hok) as Hno.
  destruct (start fuel t st) as [s | |] eqn:Hstart; cbn [mbind res_bind]; [| done | done].
  apply IH. by eapply start_refs_ok.
Qed.

(** X5. The script never raises an uncaught fault: neither its top level
    ([populateGrid()] and the first request for a frame) nor any sequence
    of frame callbacks after it, on any canvas and for any random numbers.
    Every read [grid[x][y]] outside [cellValue] and every write
    [tempGrid[x][y]] finds its column. *)
Theorem script_never_throws (fuel : nat) :
  boot fuel <> Throw /\
  forall st0 ts, boot fuel = Ok st0 -> frames fuel ts st0 <> Throw.
Proof.
  split.
  - unfold boot. destruct (populateGrid_seeded fuel initial) as (g & n & _ & Hg & ->).
    pose proof (update_no_throw fuel _ (refs_ok_seeded initial g n Hg)) as Hno.
    destruct (update fuel _); done.
  - intros st0 ts Hboot. apply frames_no_throw.
    by destruct (frames_aliased fuel [] st0 st0 Hboot eq_refl).
Qed.

(** ** The grids the script reaches *)

(** X6. In every state the script reaches (after [populateGrid()] and any
    sequence of frame callbacks) [grid] is an array of [cols] columns of
    [rows] cells, and every cell read from it is the number 0 or the number
    1: no hole, no [undefined], no other value. *)
Theorem reachable_grid_well_formed (fuel : nat) (ts : list float) (st0 st : state) :
  boot fuel = Ok st0 -> frames fuel ts st0 = Ok st ->
  exists g, heap st !! grid st = Some g /\
            length g = Z.to_nat cols /\
            (forall x, 0 <= x < cols ->
               exists c, column_at g x = Some c /\ length c = Z.to_nat rows) /\
            (forall x y, 0 <= x < cols -> 0 <= y < rows ->
               get2 g x y = Ok (VNum 0) \/ get2 g x y = Ok (VNum 1)).
Proof.
  intros Hboot Hrun.
  destruct (reachable_grids_ok fuel ts st0 st Hboot Hrun)
    as (g & t & Hg & Hrg & Hbg & _).
  exists g. split; [done |]. split; [apply Hrg |].
  split; [intros x Hx; by apply rect_column |].
  intros x y Hx Hy. destruct (rect_get2 g x y Hrg Hx) as [v Hv].
  rewrite Hv. destruct (Hbg x y v Hv Hx Hy) as [-> | ->]; auto.
Qed.

(** ** Pacing over a sequence of callbacks *)

Lemma log_emit (es : list event) (e : event) (st : state) :
  log es (emit e st) = log (es ++ [e]) st.
Proof. unfold log, emit; cbn. by rewrite <- app_assoc. Qed.

Lemma frames_wait (fuel : nat) (ts : list float) (t0 : float) (st : state) :
  startTime st = Some t0 -> Forall (fun t => due t0 t = false) ts ->
  frames fuel ts st = Ok (log (replicate (length ts) RequestAnimationFrame) st).
Proof.
  intros Hclock Hall. revert st Hclock.
  induction Hall as [| t ts Ht Hts IH]; intros st Hclock; cbn [frames].
  - by rewrite log_nil.
  - rewrite (start_wait fuel t t0 st Hclock Ht). cbn [mbind res_bind].
    rewrite IH by done. rewrite log_emit. cbn [length].
    by rewrite replicate_S_end.
Qed.

(** X7. Callbacks that arrive within [stepInMs] of the last step are
    no-ops, however many they are: a sequence of timestamps, fractional or
    not, for none of which the test [timestamp - startTime > stepInMs] of
    [start] holds runs no step, changes no variable and no array, and only
    asks for the next frame once per callback. The same holds from the
    first callback on, which sets [startTime] and, whatever its timestamp
    (NaN and the infinities included), does not step. No fuel is used:
    [update] is not called. *)
Theorem frames_within_interval (fuel : nat) (ts : list float) (st : state) :
  (forall t0, startTime st = Some t0 -> Forall (fun t => due t0 t = false) ts ->
     frames fuel ts st = Ok (log (replicate (length ts) RequestAnimationFrame) st)) /\
  (forall t, startTime st = None -> Forall (fun t' => due t t' = false) ts ->
     frames fuel (t :: ts) st
     = Ok (log (replicate (S (length ts)) RequestAnimationFrame)
             (set_startTime (Some t) st))).
Proof.
  split.
  - intros t0. apply frames_wait.
  - intros t Hnone Hall. cbn [frames]. rewrite start_first by done.
    cbn [mbind res_bind]. rewrite (frames_wait fuel ts t) by done.
    by rewrite log_emit, replicate_S_end.
Qed.

Lemma start_drawCount (fuel : nat) (t : float) (st st' : state) :
  refs_ok st -> start fuel t st = Ok st' ->
  drawCount st' = drawCount st + steps_due (startTime st) [t] /\
  startTime st' = match startTime st with
                  | None => Some t
                  | Some t0 => if due t0 t then Some t else Some t0
                  end.
Proof.
  intros Hok. destruct (startTime st) as [t0 |] eqn:Hclock.
  - cbn [steps_due]. destruct (due t0 t) eqn:Hle.
    + rewrite (start_due fuel t t0 st Hclock) by done.
      destruct (update fuel _) as [s | |] eqn:Hrun; cbn [mbind res_bind]; [| done | done].
      intros [= <-]. apply update_returns in Hrun as (_ & _ & _ & Hs & Hd); [| exact Hok].
      cbn in *. rewrite Hd, Hs. split; [lia | done].
    + rewrite (start_wait fuel t t0 st Hclock Hle). intros [= <-]. cbn.
      split; [lia | done].
  - rewrite start_first by done. intros [= <-]. cbn. split; [lia | done].
Qed.

(** X8. How many steps a sequence of callbacks runs depends on the
    timestamps only, not on the grid nor on the random numbers: after any
    sequence of callbacks that return, [drawCount] has grown by the number
    of timestamps for which the binary64 test [timestamp - startTime >
    stepInMs] holds against the timestamp of the step before (the first
    callback only setting the clock). *)
Theorem frames_drawCount (fuel : nat) (ts : list float) (st st' : state) :
  refs_ok st -> frames fuel ts st = Ok st' ->
  drawCount st' = drawCount st + steps_due (startTime st) ts.
Proof.
  revert st. induction ts as [| t ts IH]; intros st Hok; cbn [frames].
  - intros [= <-]. cbn. lia.
  - destruct (start fuel t st) as [s | |] eqn:Hstart; cbn [mbind res_bind]; [| done | done].
    intros Hrun.
    destruct (start_drawCount fuel t st s Hok Hstart) as (Hd & Hs).
    rewrite (IH s (start_refs_ok fuel t st s Hok Hstart) Hrun), Hd, Hs.
    cbn [steps_due]. destruct (startTime st) as [t0 |]; [| lia].
    destruct (due t0 t); lia.
Qed.

(** ** A canvas without area *)

Lemma collapsed_no_area (cnt : Z) : width * height = 0 -> collapsed cnt = false.
Proof.
  intros H0. unfold collapsed, js_div, qwidth, qheight, size.
  unfold Qeq_bool, Qdiv, Qmult, Qinv. cbn [Qnum Qden inject_Z].
  rewrite !Z.mul_1_r. change (0 * Z.pos (1 * 4 * (1 * 4))) with 0.
  by rewrite H0.
Qed.

(** X10. On a canvas of width 0 or of height 0 the quotient of the monitor
    is 0 / 0, the comparison with 0.10 is false, and the reseed never
    fires: [populateGrid] draws no random number, runs exactly one cycle
    and returns. *)
Theorem no_area_no_reseed (fuel : nat) (st : state) :
  width * height = 0 ->
  (forall cnt, collapsed cnt = false) /\
  exists st', populateGrid (S fuel) st = Ok st' /\
              cycles st' = S (cycles st) /\ randoms st' = randoms st.
Proof.
  intros H0. split; [intros cnt; by apply collapsed_no_area |].
  destruct (populateGrid_seeded (S fuel) st) as (g & n & Hseed & Hg & ->).
  pose proof (seed_randoms st _ Hseed) as Hn. cbn in Hn.
  rewrite update_cycle.
  destruct (cycle_ok _ (refs_ok_seeded st g n Hg)) as (h1 & g1 & tr & _ & _ & _ & Htr & ->).
  cbn [mbind res_bind]. rewrite collapsed_no_area by done.
  eexists. split; [done |]. split.
  - fold (cycled (seeded st g n) h1 tr). by rewrite cycles_cycled.
  - cbn. rewrite Hn.
    assert (Hz : (Z.to_nat cols * Z.to_nat rows = 0)%nat).
    { unfold cols, rows, size.
      assert (width = 0 \/ height = 0) as [-> | ->] by lia;
        change ((0 + 4 - 1) / 4) with 0; lia. }
    lia.
Qed.

(** ** The neighbour count is local *)

Lemma lookup_list_set (c : column) (y0 y' : Z) (v : cell) :
  0 <= y0 -> y' <> y0 ->
  default VUndef (lookupZ y' (list_set VUndef c y0 v)) = default VUndef (lookupZ y' c).
Proof.
  intros Hy0 Hne. unfold list_set.
  destruct (Z.ltb_spec y0 0); [lia |].
  destruct (Z.ltb_spec y' 0); [by rewrite !lookupZ_neg |].
  rewrite !lookupZ_nat by done.
  destruct (Z.ltb_spec y0 (Z.of_nat (length c))).
  - by rewrite list_lookup_insert_ne by lia.
  - destruct (decide (Z.to_nat y' < length c)%nat) as [Hin | Hout].
    + by rewrite lookup_app_l.
    + rewrite lookup_app_r, (lookup_ge_None_2 c) by lia. cbn.
      destruct (decide (y' < y0)) as [Hpad | Hpast].
      * rewrite lookup_app_l by (rewrite length_replicate; lia).
        by rewrite lookup_replicate_2 by lia.
      * rewrite lookup_ge_None_2; [done |].
        rewrite length_app, length_replicate. cbn. lia.
Qed.

Lemma lookup_list_set_eq (c : column) (y0 : Z) (v : cell) :
  0 <= y0 -> lookupZ y0 (list_set VUndef c y0 v) = Some v.
Proof.
  intros Hy0. unfold list_set.
  destruct (Z.ltb_spec y0 0); [lia |]. rewrite lookupZ_nat by done.
  destruct (Z.ltb_spec y0 (Z.of_nat (length c))).
  - apply list_lookup_insert_eq. lia.
  - rewrite lookup_app_r by lia.
    rewrite lookup_app_r by (rewrite length_replicate; lia).
    rewrite length_replicate.
    by replace (Z.to_nat y0 - length c - (Z.to_nat y0 - length c))%nat with 0%nat by lia.
Qed.

Lemma cellValue_set2 (g g' : array2) (x0 y0 x' y' : Z) (v : cell) :
  set2 g x0 y0 v = Ok g' -> 0 <= y0 ->
  cellValue g' x' y' = if (x' =? x0) && (y' =? y0) then v else cellValue g x' y'.
Proof.
  unfold set2. destruct (column_at g x0) as [c |] eqn:Hc; [| done].
  intros [= <-] Hy0. pose proof Hc as Hc'. apply column_at_Some in Hc' as [Hx0 Hl].
  assert (Hlt : (Z.to_nat x0 < length g)%nat) by (by eapply lookup_lt_Some).
  rewrite (list_set_inside None) by lia.
  destruct (Z.eqb_spec x' x0) as [-> | Hnex]; cbn [andb].
  - assert (Hcol : column_at (<[Z.to_nat x0 := Some (list_set VUndef c y0 v)]> g) x0
                   = Some (list_set VUndef c y0 v)).
    { apply column_at_Some. split; [done |]. by apply list_lookup_insert_eq. }
    destruct (cellValue_column _ x0 y' _ Hcol) as [_ ->].
    destruct (Z.eqb_spec y' y0) as [-> | Hney].
    + by rewrite lookup_list_set_eq.
    + destruct (cellValue_column g x0 y' c Hc) as [_ ->].
      by apply lookup_list_set.
  - assert (Hcol : column_at (<[Z.to_nat x0 := Some (list_set VUndef c y0 v)]> g) x'
                   = column_at g x').
    { unfold column_at. destruct (Z.ltb_spec x' 0); [by rewrite !lookupZ_neg |].
      rewrite !lookupZ_nat by done. by rewrite list_lookup_insert_ne by lia. }
    unfold cellValue, get2. by rewrite Hcol.
Qed.

Lemma bit_set2 (g g' : array2) (x0 y0 x' y' : Z) (v : cell) :
  set2 g x0 y0 v = Ok g' -> 0 <= y0 ->
  bit g' x' y' = if (x' =? x0) && (y' =? y0) then cell_bit v else bit g x' y'.
Proof.
  intros Hset Hy0. unfold bit. rewrite (cellValue_set2 g g' x0 y0 x' y' v Hset Hy0).
  by destruct ((x' =? x0) && (y' =? y0)).
Qed.

(** X12. [countNeighbours(x, y)] counts each of the eight neighbours of
    [(x, y)] once and nothing else. After an assignment [grid[x0][y0] = v]
    with [0 <= y0] that returns (so [x0] names a column of the array), the
    count at [(x, y)] has changed by what the written cell contributes,
    its new truth value less its old one, when [(x0, y0)] is one of the
    eight neighbours, and has not changed otherwise: not for a write to the
    cell [(x, y)] itself, and not for a write further away. The array is
    any array of separate columns, rectangular or not, and the write may
    lengthen its column. *)
Theorem countNeighbours_local (g g' : array2) (x0 y0 x y : Z) (v : cell) :
  0 <= y0 -> set2 g x0 y0 v = Ok g' ->
  countNeighbours g' x y
  = countNeighbours g x y
    + (if neighbour x y x0 y0 then cell_bit v - bit g x0 y0 else 0).
Proof.
  intros Hy0 Hset. rewrite !countNeighbours_bits.
  rewrite !(bit_set2 g g' x0 y0 _ _ v Hset Hy0). unfold neighbour.
  repeat match goal with
         | |- context [?a =? ?b] => destruct (Z.eqb_spec a b); subst
         end;
  repeat match goal with
         | |- context [?a <=? ?b] => destruct (Z.leb_spec a b)
         end;
  cbn [andb negb]; lia.
Qed.

(** ** The first step after a seeding *)

(** X4. The step of the [update] that [populateGrid] calls is synchronous:
    [grid] and [tempGrid] are then two arrays, and the cycle puts into
    [tempGrid], which becomes [grid], exactly the next generation of the
    seeded grid by the rules of the game, every cell from the seeded grid;
    the count it returns is the number of live cells of that generation. *)
Theorem populateGrid_first_cycle_synchronous (st : state) :
  exists g n tr,
    seed st = Ok (seeded st g n) /\ rect g /\ binary g /\
    cycle (seeded st g n)
    = Ok (live (spec_step g),
          log tr (set_grid (tempGrid (seeded st g n))
                    (set_heap (<[tempGrid (seeded st g n) := spec_step g]>
                                 (heap (seeded st g n)))
                       (log prelude (seeded st g n))))) /\
    no_clear tr.
Proof.
  destruct (seed_spec st) as (g & n & Hseed & Hg & Hb).
  destruct (seeded_refs st g n Hg) as (Hgrid & Htemp & Hne).
  pose proof (step_separate (log prelude (seeded st g n)) g zeros Hne Hgrid Hg Hb Htemp
                rect_zeros) as Hstep.
  assert (Hrs : rect (spec_step g)).
  { rewrite <- image_spec_step by done. clear.
    split; [unfold image; by rewrite length_fmap, length_seqZ |].
    intros o (x & -> & _)%list_elem_of_fmap. eexists. split; [done |].
    by rewrite length_fmap, length_seqZ. }
  destruct (drawCells_spec
              (set_grid (tempGrid (seeded st g n))
                 (set_heap (<[tempGrid (seeded st g n) := spec_step g]>
                              (heap (seeded st g n)))
                    (log prelude (seeded st g n)))) (spec_step g))
    as (tr & Hdraw & Htr); [cbn; apply lookup_insert_eq | exact Hrs |].
  exists g, n, tr. split; [done |]. split; [done |]. split; [done |].
  split; [| done]. unfold cycle.
  change (draw 0 0 Black width (emit (ClearRect 0 0 width height) (seeded st g n)))
    with (log prelude (seeded st g n)).
  rewrite Hstep. exact Hdraw.
Qed.

(** ** What [drawCells] draws *)

Lemma draw_column_exact (st : state) (g : array2) (x : Z) (c : column) (ys : list Z) :
  heap st !! grid st = Some g -> column_at g x = Some c ->
  forall (cnt : Z) (tr0 : list event),
    for_list ys
      (fun y '(cnt, st) =>
         c ← get2 (deref (heap st) (grid st)) x y;
         if truthy c then
           Ok (cnt + 1, draw (x * size) (y * size) (Rgb x y 100) size st)
         else Ok (cnt, st))
      (cnt, log tr0 st)
    = Ok (cnt + Z.of_nat (length (ys ≫= fun y =>
              if truthy (cellValue g x y)
              then [FillRect (Rgb x y 100) (x * size) (y * size) size size]
              else [])),
          log (rev (ys ≫= fun y =>
              if truthy (cellValue g x y)
              then [FillRect (Rgb x y 100) (x * size) (y * size) size size]
              else []) ++ tr0) st).
Proof.
  intros Hg Hc.
  assert (Hget : forall y, get2 g x y = Ok (cellValue g x y)).
  { intros y. by destruct (cellValue_column g x y c Hc) as [-> ->]. }
  induction ys as [| y ys IH]; intros cnt tr0.
  - cbn. by rewrite Z.add_0_r.
  - rewrite bind_cons. cbn [for_list heap grid log].
    rewrite (deref_lookup _ _ _ Hg), Hget. cbn [mbind res_bind].
    destruct (truthy (cellValue g x y)).
    + change (draw (x * size) (y * size) (Rgb x y 100) size (log tr0 st))
        with (log (FillRect (Rgb x y 100) (x * size) (y * size) size size :: tr0) st).
      etrans; [exact (IH _ _) |].
      rewrite length_app, rev_app_distr, <- app_assoc. cbn [length rev app].
      f_equal. f_equal. lia.
    + etrans; [exact (IH _ _) |]. done.
Qed.

Lemma draw_columns_exact (st : state) (g : array2) (xs : list Z) :
  heap st !! grid st = Some g -> rect g ->
  (forall x, x ∈ xs -> 0 <= x < cols) ->
  forall (cnt : Z) (tr0 : list event),
    for_list xs
      (fun x =>
         for_list (seqZ 0 rows) (fun y '(cnt, st) =>
           c ← get2 (deref (heap st) (grid st)) x y;
           if truthy c then
             Ok (cnt + 1, draw (x * size) (y * size) (Rgb x y 100) size st)
           else Ok (cnt, st)))
      (cnt, log tr0 st)
    = Ok (cnt + Z.of_nat (length (xs ≫= fun x => seqZ 0 rows ≫= fun y =>
              if truthy (cellValue g x y)
              then [FillRect (Rgb x y 100) (x * size) (y * size) size size]
              else [])),
          log (rev (xs ≫= fun x => seqZ 0 rows ≫= fun y =>
              if truthy (cellValue g x y)
              then [FillRect (Rgb x y 100) (x * size) (y * size) size size]
              else []) ++ tr0) st).
Proof.
  intros Hg Hr. induction xs as [| x xs IH]; intros Hxs cnt tr0.
  - cbn. by rewrite Z.add_0_r.
  - destruct (rect_column g x Hr) as (c & Hc & _); [apply Hxs; left |].
    rewrite bind_cons. cbn [for_list].
    rewrite (draw_column_exact st g x c (seqZ 0 rows) Hg Hc). cbn [mbind res_bind].
    etrans; [exact (IH (fun x' Hx' => Hxs x' (list_elem_of_further _ _ _ Hx')) _ _) |].
    rewrite length_app, rev_app_distr, <- app_assoc. f_equal. f_equal. lia.
Qed.

(** X3. On a grid of the program's dimensions [drawCells] never faults,
    changes no variable and no array, and draws one square of side [size]
    for each live cell and none for a dead one, in the order of its loops,
    at [(x * size, y * size)] in the colour [rgb(x, y, 100)]; the number it
    returns is the number of squares drawn, which is the number of live
    cells. *)
Theorem drawCells_draws_live_cells (st : state) (g : array2) :
  heap st !! grid st = Some g -> rect g ->
  drawCells st = Ok (live g, log (rev (drawn g)) st) /\
  Z.of_nat (length (drawn g)) = live g /\
  (forall e, e ∈ drawn g <->
     exists x y, 0 <= x < cols /\ 0 <= y < rows /\ truthy (cellValue g x y) = true /\
                 e = FillRect (Rgb x y 100) (x * size) (y * size) size size).
Proof.
  intros Hg Hr.
  assert (Hrun : drawCells st
                 = Ok (0 + Z.of_nat (length (drawn g)), log (rev (drawn g) ++ []) st)).
  { unfold drawCells.
    rewrite (nested_loops (fun x y '(cnt, st) =>
            c ← get2 (deref (heap st) (grid st)) x y;
            if truthy c then
              Ok (cnt + 1, draw (x * size) (y * size) (Rgb x y 100) size st)
            else Ok (cnt, st))).
    pose proof (draw_columns_exact st g (seqZ 0 cols) Hg Hr
                  (fun x Hx => proj1 (elem_of_seqZ 0 cols x) Hx) 0 []) as Hloops.
    rewrite log_nil in Hloops. exact Hloops. }
  rewrite app_nil_r, Z.add_0_l in Hrun.
  destruct (drawCells_spec st g Hg Hr) as (tr & Hspec & _).
  assert (Hcount : Z.of_nat (length (drawn g)) = live g) by congruence.
  split; [by rewrite Hrun, Hcount |]. split; [exact Hcount |].
  intros e. unfold drawn. rewrite list_elem_of_bind. split.
  - intros (x & (y & He & Hy%elem_of_seqZ)%list_elem_of_bind & Hx%elem_of_seqZ).
    exists x, y. destruct (truthy (cellValue g x y)); [| by apply elem_of_nil in He].
    apply list_elem_of_singleton in He. repeat split; try done; lia.
  - intros (x & y & Hx & Hy & Hlive & ->). exists x. split; [| apply elem_of_seqZ; lia].
    apply list_elem_of_bind. exists y. split; [| apply elem_of_seqZ; lia].
    rewrite Hlive. by apply list_elem_of_singleton.
Qed.

(** ** What [seed] writes *)

Lemma seed_loops (st : state) :
  seed st
  = for_list (seqZ 0 cols) (fun x =>
      for_list (seqZ 0 rows) (fun y st =>
        let r := random_gt_half (randoms st) in
        let st := set_randoms (S (randoms st)) st in
        if r then
          g ← set2 (deref (heap st) (grid st)) x y (VNum 1);
          Ok (set_heap (<[grid st := g]> (heap st)) st)
        else Ok st))
      (seeded st zeros (randoms st)).
Proof.
  unfold seed. rewrite initArray_zeros. cbn [mbind res_bind alloc].
  cbn [heap set_heap set_grid]. cbn [mbind res_bind].
  rewrite (nested_loops (fun x y st =>
        let r := random_gt_half (randoms st) in
        let st := set_randoms (S (randoms st)) st in
        if r then
          g ← set2 (deref (heap st) (grid st)) x y (VNum 1);
          Ok (set_heap (<[grid st := g]> (heap st)) st)
        else Ok st)).
  f_equal. unfold seeded, set_tempGrid, set_heap, set_grid. cbn. f_equal.
  destruct (seeded_fresh st) as (_ & _ & Hne).
  rewrite (insert_insert_ne _ (fresh (dom (heap st)))) by done.
  by rewrite insert_insert_eq.
Qed.

Lemma seed_column_exact (st : state) (a : array2) (r : nat) (x : Z) (n : nat) :
  column_at a x = Some (replicate (Z.to_nat rows) (VNum 0)) ->
  (n <= Z.to_nat rows)%nat ->
  for_list (seqZ 0 (Z.of_nat n)) (fun y st =>
      let r := random_gt_half (randoms st) in
      let st := set_randoms (S (randoms st)) st in
      if r then
        g ← set2 (deref (heap st) (grid st)) x y (VNum 1);
        Ok (set_heap (<[grid st := g]> (heap st)) st)
      else Ok st)
    (seeded st a r)
  = Ok (seeded st
          (<[Z.to_nat x :=
               Some (((fun y => VNum (if random_gt_half (r + Z.to_nat y)%nat then 1 else 0))
                        <$> seqZ 0 (Z.of_nat n))
                     ++ replicate (Z.to_nat rows - n) (VNum 0))]> a)
          (r + n)).
Proof.
  intros Hc. pose proof Hc as Hc'. apply column_at_Some in Hc' as [Hx Hl].
  assert (Hlt : (Z.to_nat x < length a)%nat) by (by eapply lookup_lt_Some).
  induction n as [| n IH]; intros Hn.
  - cbn [for_list]. rewrite Nat.sub_0_r, Nat.add_0_r. cbn [fmap list_fmap app].
    change (seqZ 0 (Z.of_nat 0)) with (@nil Z). cbn. by rewrite list_insert_id.
  - rewrite seqZ_S, for_list_app, IH by lia. cbn [for_list mbind res_bind].
    rewrite Z.add_0_l. cbn zeta.
    set (pre := (fun y => VNum (if random_gt_half (r + Z.to_nat y)%nat then 1 else 0))
                  <$> seqZ 0 (Z.of_nat n)).
    assert (Hpre : length pre = n) by (unfold pre; rewrite length_fmap, length_seqZ; lia).
    assert (Hrest : replicate (Z.to_nat rows - n) (VNum 0)
                    = VNum 0 :: replicate (Z.to_nat rows - S n) (VNum 0)).
    { replace (Z.to_nat rows - n)%nat with (S (Z.to_nat rows - S n)) by lia. done. }
    change (randoms (seeded st ?g (r + n))) with (r + n)%nat.
    rewrite fmap_app. fold pre. cbn [fmap list_fmap]. rewrite Nat2Z.id.
    replace (r + S n)%nat with (S (r + n)) by lia.
    destruct (random_gt_half (r + n)).
    + rewrite (deref_lookup _ _ (<[Z.to_nat x := Some (pre ++ replicate (Z.to_nat rows - n)
                                                          (VNum 0))]> a))
        by (cbn; apply lookup_insert_eq).
      unfold set2.
      assert (Hcol : column_at (<[Z.to_nat x := Some (pre ++ replicate (Z.to_nat rows - n)
                                                        (VNum 0))]> a) x
                     = Some (pre ++ replicate (Z.to_nat rows - n) (VNum 0))).
      { apply column_at_Some. split; [done |]. by apply list_lookup_insert_eq. }
      rewrite Hcol. cbn [mbind res_bind]. f_equal.
      rewrite (list_set_inside VUndef)
        by (rewrite length_app, Hpre, length_replicate; lia).
      rewrite (list_set_inside None) by (rewrite length_insert; lia).
      rewrite list_insert_insert_eq, Nat2Z.id, insert_app_r_alt by lia.
      rewrite Hpre, Nat.sub_diag, Hrest. cbn [insert list_insert].
      unfold set_heap, seeded. cbn. rewrite insert_insert_eq.
      by rewrite <- app_assoc.
    + rewrite Hrest, <- app_assoc. done.
Qed.

Lemma seed_columns_exact (st : state) (r0 : nat) (m : nat) :
  (m <= Z.to_nat cols)%nat ->
  for_list (seqZ 0 (Z.of_nat m)) (fun x =>
      for_list (seqZ 0 rows) (fun y st =>
        let r := random_gt_half (randoms st) in
        let st := set_randoms (S (randoms st)) st in
        if r then
          g ← set2 (deref (heap st) (grid st)) x y (VNum 1);
          Ok (set_heap (<[grid st := g]> (heap st)) st)
        else Ok st))
    (seeded st zeros r0)
  = Ok (seeded st
          (((fun x => Some ((fun y => seeded_cell r0 x y) <$> seqZ 0 rows))
              <$> seqZ 0 (Z.of_nat m))
           ++ replicate (Z.to_nat cols - m) (Some (replicate (Z.to_nat rows) (VNum 0))))
          (r0 + m * Z.to_nat rows)).
Proof.
  induction m as [| m IH]; intros Hm.
  - cbn [for_list]. change (seqZ 0 (Z.of_nat 0)) with (@nil Z). cbn [fmap list_fmap app].
    by rewrite Nat.sub_0_r, Nat.add_0_r.
  - rewrite seqZ_S, for_list_app, IH by lia. cbn [for_list mbind res_bind].
    rewrite Z.add_0_l.
    set (pre := (fun x => Some ((fun y => seeded_cell r0 x y) <$> seqZ 0 rows))
                  <$> seqZ 0 (Z.of_nat m)).
    assert (Hpre : length pre = m) by (unfold pre; rewrite length_fmap, length_seqZ; lia).
    assert (Hrest : replicate (Z.to_nat cols - m) (Some (replicate (Z.to_nat rows) (VNum 0)))
                    = Some (replicate (Z.to_nat rows) (VNum 0))
                      :: replicate (Z.to_nat cols - S m)
                           (Some (replicate (Z.to_nat rows) (VNum 0)))).
    { replace (Z.to_nat cols - m)%nat with (S (Z.to_nat cols - S m)) by lia. done. }
    rewrite (seqZ_to_nat 0 rows).
    rewrite (seed_column_exact st _ (r0 + m * Z.to_nat rows) (Z.of_nat m) (Z.to_nat rows));
      [| | lia].
    + cbn [mbind res_bind]. f_equal. f_equal; [| lia].
      rewrite Nat.sub_diag, app_nil_r, Nat2Z.id, insert_app_r_alt by lia.
      rewrite Hpre, Nat.sub_diag, Hrest. cbn [insert list_insert].
      rewrite fmap_app, <- app_assoc. fold pre. cbn [fmap list_fmap app].
      unfold pre. rewrite <- (seqZ_to_nat 0 rows).
      do 3 f_equal. apply fmap_seqZ_ext. intros y Hy. unfold seeded_cell.
      by rewrite Nat2Z.id.
    + apply column_at_Some. split; [lia |].
      rewrite Nat2Z.id, lookup_app_r by lia. by rewrite Hpre, Nat.sub_diag, Hrest.
Qed.

(** [seed] in closed form: the grid it leaves and the count of random
    numbers after it. *)
Lemma seed_exact (st : state) :
  seed st
  = Ok (seeded st (seeded_grid (randoms st))
          (randoms st + Z.to_nat cols * Z.to_nat rows)).
Proof.
  rewrite seed_loops, (seqZ_to_nat 0 cols), seed_columns_exact by lia.
  rewrite Nat.sub_diag, app_nil_r. unfold seeded_grid.
  by rewrite <- (seqZ_to_nat 0 cols).
Qed.

Lemma seeded_grid_get2 (r0 : nat) (x y : Z) :
  0 <= x < cols -> 0 <= y < rows ->
  get2 (seeded_grid r0) x y
  = Ok (VNum (if random_gt_half (r0 + Z.to_nat x * Z.to_nat rows + Z.to_nat y)%nat
              then 1 else 0)).
Proof.
  intros Hx Hy. unfold get2, seeded_grid.
  assert (Hcol : column_at
            ((fun x => Some ((fun y => seeded_cell r0 x y) <$> seqZ 0 rows))
               <$> seqZ 0 cols) x
          = Some ((fun y => seeded_cell r0 x y) <$> seqZ 0 rows)).
  { apply column_at_Some. split; [lia |].
    rewrite list_lookup_fmap, lookup_seqZ_lt by lia. cbn.
    by rewrite Z2Nat.id by lia. }
  rewrite Hcol, lookupZ_nat, list_lookup_fmap, lookup_seqZ_lt by lia. cbn.
  rewrite Z2Nat.id by lia. done.
Qed.

Lemma seeded_inj (st : state) (g g' : array2) (n n' : nat) :
  seeded st g n = seeded st g' n' -> g = g' /\ n = n'.
Proof.
  intros Heq. split.
  - assert (Hl : heap (seeded st g n) !! grid (seeded st g n)
                 = heap (seeded st g' n') !! grid (seeded st g n)) by (by rewrite Heq).
    cbn in Hl. rewrite !lookup_insert_eq in Hl. congruence.
  - exact (f_equal randoms Heq).
Qed.

Lemma seed_seeded (st : state) (g : array2) (n : nat) :
  seed st = Ok (seeded st g n) ->
  g = seeded_grid (randoms st) /\ n = (randoms st + Z.to_nat cols * Z.to_nat rows)%nat.
Proof.
  rewrite seed_exact. intros Heq.
  assert (Hs : seeded st (seeded_grid (randoms st))
                 (randoms st + Z.to_nat cols * Z.to_nat rows) = seeded st g n)
    by congruence.
  apply seeded_inj in Hs as [<- <-]. done.
Qed.

(** X2. [seed] asks for the random numbers cell by cell in the order of its
    loops and sets [grid[x][y]] to 1 exactly when the draw for that cell,
    number [x * rows + y] of the call, exceeds 0.5; every other cell keeps
    the 0 it was created with, and [tempGrid] is left dead. *)
Theorem seed_follows_random_numbers (st : state) :
  seed st
  = Ok (seeded st (seeded_grid (randoms st))
          (randoms st + Z.to_nat cols * Z.to_nat rows)) /\
  (forall x y, 0 <= x < cols -> 0 <= y < rows ->
     get2 (seeded_grid (randoms st)) x y
     = Ok (VNum (if random_gt_half
                      (randoms st + Z.to_nat x * Z.to_nat rows + Z.to_nat y)%nat
                 then 1 else 0))).
Proof.
  split; [apply seed_exact |]. intros x y. apply seeded_grid_get2.
Qed.

(** C10. [populateGrid] makes [grid] and [tempGrid] two new arrays, both
    created dead; its loops draw one random number per cell, in the order
    of the loops, and write to [grid] only: cell [(x, y)] of [grid] is 1
    exactly when its draw, number [x * rows + y] of the call, exceeds 0.5,
    and [tempGrid] is still the dead grid; then it calls [update] at once.
    Hence a call of [update] whose monitor fires (in a frame callback or
    not) runs a second cycle, on the grid seeded from the next
    [cols * rows] random numbers, and recurses again exactly when the count
    of that cycle is below the threshold in turn; when it returns it has
    run at least two cycles. *)
Theorem populateGrid_spec (fuel : nat) (st : state) :
  exists g n,
    g = seeded_grid (randoms st) /\
    n = (randoms st + Z.to_nat cols * Z.to_nat rows)%nat /\
    (forall x y, 0 <= x < cols -> 0 <= y < rows ->
       get2 g x y
       = Ok (VNum (if random_gt_half
                        (randoms st + Z.to_nat x * Z.to_nat rows + Z.to_nat y)%nat
                   then 1 else 0))) /\
    initArray qwidth qheight = Ok zeros /\
    seed st = Ok (seeded st g n) /\ refs_ok (seeded st g n) /\
    heap st !! grid (seeded st g n) = None /\
    heap st !! tempGrid (seeded st g n) = None /\
    grid (seeded st g n) <> tempGrid (seeded st g n) /\
    heap (seeded st g n) !! tempGrid (seeded st g n) = Some zeros /\
    heap (seeded st g n) !! grid (seeded st g n) = Some g /\ rect g /\
    (forall l, l <> grid (seeded st g n) -> l <> tempGrid (seeded st g n) ->
               heap (seeded st g n) !! l = heap st !! l) /\
    populateGrid fuel st = update fuel (seeded st g n) /\
    (forall st0 cnt st1, refs_ok st0 -> cycle st0 = Ok (cnt, st1) ->
       collapsed cnt = true ->
       update (S fuel) st0 = populateGrid fuel st1 /\
       (forall st', update (S fuel) st0 = Ok st' -> (cycles st0 + 2 <= cycles st')%nat) /\
       exists g2 n2 cnt2 st3,
         g2 = seeded_grid (randoms st1) /\
         n2 = (randoms st1 + Z.to_nat cols * Z.to_nat rows)%nat /\
         seed st1 = Ok (seeded st1 g2 n2) /\
         cycle (seeded st1 g2 n2) = Ok (cnt2, st3) /\
         cycles st3 = (cycles st0 + 2)%nat /\
         update (S (S fuel)) st0
         = (if collapsed cnt2 then populateGrid fuel st3 else Ok st3)).
Proof.
  destruct (populateGrid_seeded fuel st) as (g & n & Hseed & Hg & Hpop).
  destruct (seed_seeded st g n Hseed) as [Hgeq Hneq].
  exists g, n. destruct (seeded_fresh st) as (Hf1 & Hf2 & Hne).
  destruct (seeded_refs st g n Hg) as (Hgrid & Htemp & _).
  split; [done |]. split; [done |].
  split; [intros x y; rewrite Hgeq; apply seeded_grid_get2 |].
  split; [apply initArray_zeros |].
  split; [exact Hseed |]. split; [by apply refs_ok_seeded |].
  split; [exact Hf1 |]. split; [exact Hf2 |].
  split; [exact Hne |]. split; [exact Htemp |]. split; [exact Hgrid |].
  split; [exact Hg |]. split; [| split; [exact Hpop |]].
  - intros l Hl1 Hl2. cbn in *. by rewrite !lookup_insert_ne by done.
  - intros st0 cnt st1 Hok Hcyc Hyes.
    assert (Hupd : update (S fuel) st0 = populateGrid fuel st1).
    { rewrite update_cycle, Hcyc. cbn [mbind res_bind]. by rewrite Hyes. }
    split; [exact Hupd |]. split; cycle 1.
    { destruct (update_reseed fuel st0 cnt st1 Hok Hcyc Hyes)
        as (g2 & n2 & cnt2 & st3 & H1 & H2 & H3 & _ & _ & H4).
      destruct (seed_seeded st1 g2 n2 H1) as [Hg2 Hn2].
      exists g2, n2, cnt2, st3. auto 10. }
    intros st' Hrun. rewrite Hupd in Hrun.
    destruct (cycle_ok st0 Hok) as (h1 & g1 & tr & _ & Hg1 & Hr1 & Htr & Hcyc').
    rewrite Hcyc' in Hcyc. injection Hcyc as _ <-.
    destruct (populateGrid_seeded fuel
                (log tr (set_grid (tempGrid st0) (set_heap h1 (log prelude st0)))))
      as (g2 & n2 & _ & Hr2 & Hpop2).
    rewrite Hpop2 in Hrun.
    apply update_returns in Hrun as (Hc & _); [| by apply refs_ok_seeded].
    pose proof (cycles_cycled st0 h1 tr Htr) as Hcc. unfold cycled in Hcc.
    change (cycles (seeded ?s g2 n2)) with (cycles s) in Hc. cbn in Hc, Hcc |- *.
    unfold cycles in *. cbn in *. lia.
Qed.

(** ** A canvas of at most two cells *)

Lemma bit_outside (g : array2) (x y : Z) :
  rect g -> ~ (0 <= x < cols /\ 0 <= y < rows) -> bit g x y = 0.
Proof.
  intros Hr Hout. unfold bit.
  destruct (decide (0 <= x < cols)) as [Hx | Hx].
  - destruct (rect_column g x Hr Hx) as (c & Hc & Hlen).
    destruct (cellValue_column g x y c Hc) as [_ ->].
    destruct (Z.ltb_spec y 0); [by rewrite lookupZ_neg |].
    rewrite lookupZ_ge; [done | lia].
  - by destruct (cellValue_no_column g x y (rect_column_out g x Hr Hx)) as [_ ->].
Qed.

Lemma live_zeros : live zeros = 0.
Proof.
  unfold live, zeros.
  assert (Hcol : column_live (Some (replicate (Z.to_nat rows) (VNum 0))) = 0).
  { unfold column_live. cbn [default from_option id].
    induction (Z.to_nat rows) as [| n IH]; [done |]. cbn. exact IH. }
  induction (Z.to_nat cols) as [| n IH]; [done |].
  cbn [replicate fmap list_fmap]. rewrite sumZ_cons, Hcol. exact IH.
Qed.

Section Tiny.

Hypothesis Hwidth : 0 < width.
Hypothesis Hheight : 0 < height.
Hypothesis Htiny : (width <= 4 /\ height <= 8) \/ (width <= 8 /\ height <= 4).

Lemma tiny_dimensions :
  (cols = 1 /\ rows = 1) \/ (cols = 1 /\ rows = 2) \/ (cols = 2 /\ rows = 1).
Proof. unfold cols, rows, size. Z.div_mod_to_equations. lia. Qed.

(** No cell has two neighbours. *)
Lemma updateCell_tiny (g : array2) (x y : Z) :
  rect g -> 0 <= x < cols -> 0 <= y < rows -> updateCell g x y = Ok (VNum 0).
Proof.
  intros Hr Hx Hy.
  assert (Hn : countNeighbours g x y <= 1).
  { rewrite countNeighbours_bits.
    pose proof (bit_bounds g (x - 1) (y - 1)). pose proof (bit_bounds g (x - 1) y).
    pose proof (bit_bounds g (x - 1) (y + 1)). pose proof (bit_bounds g x (y - 1)).
    pose proof (bit_bounds g x (y + 1)). pose proof (bit_bounds g (x + 1) (y - 1)).
    pose proof (bit_bounds g (x + 1) y). pose proof (bit_bounds g (x + 1) (y + 1)).
    pose proof (bit_outside g (x - 1) (y - 1) Hr). pose proof (bit_outside g (x - 1) y Hr).
    pose proof (bit_outside g (x - 1) (y + 1) Hr). pose proof (bit_outside g x (y - 1) Hr).
    pose proof (bit_outside g x (y + 1) Hr). pose proof (bit_outside g (x + 1) (y - 1) Hr).
    pose proof (bit_outside g (x + 1) y Hr). pose proof (bit_outside g (x + 1) (y + 1) Hr).
    destruct tiny_dimensions as [[Hc Hw] | [[Hc Hw] | [Hc Hw]]]; rewrite Hc, Hw in *; lia. }
  unfold updateCell.
  destruct (Z.gtb_spec (countNeighbours g x y) 3), (Z.ltb_spec (countNeighbours g x y) 2);
    cbn; try done; lia.
Qed.

Variable st : state.
Hypothesis Hok : refs_ok st.

Lemma update_column_tiny (t : array2) (c : column) (x : Z) (n : nat) :
  rect t -> column_at t x = Some c -> 0 <= x < cols -> (n <= length c)%nat ->
  for_list (seqZ 0 (Z.of_nat n)) (fun y => update_cell_at x y)
           (set_heap (<[tempGrid st := t]> (heap st)) st)
  = Ok (set_heap
          (<[tempGrid st :=
               <[Z.to_nat x := Some (replicate n (VNum 0) ++ drop n c)]> t]>
             (heap st)) st).
Proof.
  intros Hrt Hc Hx. destruct (rect_column t x Hrt Hx) as (c0 & Hc0 & Hlen).
  rewrite Hc in Hc0. injection Hc0 as <-.
  apply column_at_Some in Hc as [_ Hc].
  assert (Hlt : (Z.to_nat x < length t)%nat) by (by eapply lookup_lt_Some).
  destruct Hok as (g & _ & Hg & Hrg & _).
  induction n as [| n IH]; intros Hn.
  - cbn. rewrite drop_0, list_insert_id by done. done.
  - rewrite seqZ_S, for_list_app, IH by lia. cbn [for_list mbind res_bind].
    rewrite Z.add_0_l.
    set (tn := <[Z.to_nat x := Some (replicate n (VNum 0) ++ drop n c)]> t).
    assert (Hrn : rect tn).
    { apply rect_insert; [done |]. rewrite length_app, length_replicate, length_drop. lia. }
    assert (Hcol : column_at tn x = Some (replicate n (VNum 0) ++ drop n c)).
    { apply column_at_Some. split; [lia |]. by apply list_lookup_insert_eq. }
    assert (Hgrid : exists gn, set_heap (<[tempGrid st := tn]> (heap st)) st
                               = set_heap (<[tempGrid st := tn]> (heap st)) st /\
                               <[tempGrid st := tn]> (heap st) !! grid st = Some gn /\
                               rect gn).
    { destruct (decide (grid st = tempGrid st)) as [-> | Hne].
      - exists tn. by rewrite lookup_insert_eq.
      - exists g. by rewrite lookup_insert_ne. }
    destruct Hgrid as (gn & _ & Hgn & Hrgn).
    destruct (rect_set2 tn x (Z.of_nat n) (VNum 0) Hrn Hx) as (c' & Hc' & Hset & _);
      [lia |].
    rewrite Hcol in Hc'. injection Hc' as <-.
    erewrite update_cell_at_eq; cycle 1.
    { exact Hgn. }
    { cbn. apply lookup_insert_eq. }
    { apply updateCell_tiny; [exact Hrgn | exact Hx | lia]. }
    { exact Hset. }
    cbn [heap tempGrid set_heap].
    rewrite set_heap_set_heap, insert_insert_eq. unfold tn.
    rewrite list_insert_insert_eq, Nat2Z.id, insert_app_r_alt
      by (rewrite length_replicate; lia).
    rewrite length_replicate, Nat.sub_diag.
    destruct (lookup_lt_is_Some_2 c n) as [a Ha]; [lia |].
    rewrite (drop_S c a n Ha). cbn [insert list_insert].
    by rewrite replicate_S_end, <- app_assoc.
Qed.

Lemma update_columns_tiny (t : array2) (m : nat) :
  rect t -> (m <= length t)%nat ->
  for_list (seqZ 0 (Z.of_nat m))
           (fun x => for_list (seqZ 0 rows) (fun y => update_cell_at x y))
           (set_heap (<[tempGrid st := t]> (heap st)) st)
  = Ok (set_heap
          (<[tempGrid st :=
               replicate m (Some (replicate (Z.to_nat rows) (VNum 0))) ++ drop m t]>
             (heap st)) st).
Proof.
  intros Hrt. induction m as [| m IH]; intros Hm.
  - cbn. by rewrite drop_0.
  - rewrite seqZ_S, for_list_app, IH by lia. cbn [for_list mbind res_bind].
    rewrite Z.add_0_l.
    set (pre := replicate m (Some (replicate (Z.to_nat rows) (VNum 0)))).
    assert (Hpre : length pre = m) by apply length_replicate.
    destruct (lookup_lt_is_Some_2 t m) as [o Ho]; [lia |].
    pose proof Hrt as [Hlen Hall].
    destruct (Hall o) as (c & -> & Hc); [by eapply list_elem_of_lookup_2 |].
    assert (Hcol : column_at (pre ++ drop m t) (Z.of_nat m) = Some c).
    { apply column_at_Some. split; [lia |].
      rewrite Nat2Z.id, lookup_app_r by lia. rewrite Hpre, Nat.sub_diag.
      by rewrite lookup_drop, Nat.add_0_r. }
    assert (Hrm : rect (pre ++ drop m t)).
    { split; [rewrite length_app, Hpre, length_drop; lia |].
      intros o [Ho' | Ho']%elem_of_app.
      - apply elem_of_replicate in Ho' as [-> _]. eexists. split; [done |].
        apply length_replicate.
      - apply Hall. by eapply subseteq_drop. }
    rewrite (seqZ_to_nat 0 rows).
    rewrite (update_column_tiny (pre ++ drop m t) c (Z.of_nat m) (Z.to_nat rows) Hrm Hcol)
      by lia.
    cbn [mbind res_bind]. do 3 f_equal.
    rewrite <- Hc, drop_all, app_nil_r, Nat2Z.id.
    rewrite insert_app_r_alt by lia. rewrite Hpre, Nat.sub_diag.
    rewrite (drop_S t (Some c) m Ho). cbn [insert list_insert].
    unfold pre. rewrite Hc. by rewrite replicate_S_end, <- app_assoc.
Qed.

(** Every step, in place or not, leaves the dead grid. *)
Lemma step_tiny :
  step st = Ok (set_grid (tempGrid st)
                  (set_heap (<[tempGrid st := zeros]> (heap st)) st)).
Proof.
  destruct Hok as (g & t & Hg & Hrg & Ht & Hrt).
  unfold step, update_cells. rewrite nested_loops.
  rewrite <- (set_heap_id st) at 1. rewrite <- (insert_id (heap st) _ _ Ht) at 1.
  rewrite (seqZ_to_nat 0 cols).
  rewrite (update_columns_tiny t (Z.to_nat cols) Hrt) by (destruct Hrt; lia).
  cbn [mbind res_bind]. do 3 f_equal.
  destruct Hrt as [Hlen _]. by rewrite <- Hlen, drop_all, app_nil_r, Hlen.
Qed.

End Tiny.

Lemma update_tiny (fuel : nat) (st : state) :
  0 < width -> 0 < height ->
  (width <= 4 /\ height <= 8) \/ (width <= 8 /\ height <= 4) ->
  refs_ok st -> update fuel st = NoFuel.
Proof.
  intros Hw Hh Htiny. revert st. induction fuel as [| fuel IH]; intros st Hok; [done |].
  rewrite update_cycle.
  destruct (cycle_ok st Hok) as (h1 & g1 & tr & Hstep & Hg1 & Hr1 & Htr & ->).
  rewrite (step_tiny Hw Hh Htiny (log prelude st) Hok) in Hstep.
  injection Hstep as <-. cbn in Hg1. rewrite lookup_insert_eq in Hg1.
  injection Hg1 as <-. cbn [mbind res_bind].
  rewrite live_zeros, collapsed_iff by lia.
  assert ((size * size * 10 * 0 <? width * height) = true) as -> by (apply Z.ltb_lt; lia).
  match goal with |- populateGrid fuel ?s = _ =>
    destruct (populateGrid_seeded fuel s) as (g2 & n & _ & Hr2 & ->) end.
  apply IH. by apply refs_ok_seeded.
Qed.

(** X9. On a canvas of at most two cells (at most 4 x 8 or 8 x 4 pixels,
    neither side 0) no cell ever has two live neighbours, so every step
    leaves the dead grid, the monitor fires after every cycle, and
    [populateGrid] and [update] call each other without end: no bound on
    the recursion lets the script's [populateGrid()] return, and none makes
    it fault. *)
Theorem tiny_canvas_never_settles (fuel : nat) (st : state) :
  0 < width -> 0 < height ->
  (width <= 4 /\ height <= 8) \/ (width <= 8 /\ height <= 4) ->
  populateGrid fuel st = NoFuel /\ boot fuel = NoFuel /\
  (refs_ok st ->
     update fuel st = NoFuel /\
     step st = Ok (set_grid (tempGrid st)
                     (set_heap (<[tempGrid st := zeros]> (heap st)) st))).
Proof.
  intros Hw Hh Htiny.
  assert (Hpop : forall s, populateGrid fuel s = NoFuel).
  { intros s. destruct (populateGrid_seeded fuel s) as (g & n & _ & Hg & ->).
    apply update_tiny; auto using refs_ok_seeded. }
  split; [apply Hpop |]. split; [unfold boot; by rewrite Hpop |].
  intros Hok. split; [by apply update_tiny | by apply step_tiny].
Qed.

(** ** Every due callback steps the grid *)

Lemma start_cycles (fuel : nat) (t : float) (st st' : state) :
  refs_ok st -> start fuel t st = Ok st' ->
  Z.of_nat (cycles st) + steps_due (startTime st) [t] <= Z.of_nat (cycles st').
Proof.
  intros Hok. destruct (startTime st) as [t0 |] eqn:Hclock.
  - cbn [steps_due]. destruct (due t0 t) eqn:Hle.
    + rewrite (start_due fuel t t0 st Hclock) by done.
      destruct (update fuel _) as [s | |] eqn:Hrun; cbn [mbind res_bind]; [| done | done].
      intros [= <-]. apply update_returns in Hrun as (Hc & _); [| exact Hok].
      change (cycles (emit RequestAnimationFrame s)) with (cycles s).
      change (cycles (stamped t (PrimFloat.sub t t0) st)) with (cycles st) in Hc. lia.
    + rewrite (start_wait fuel t t0 st Hclock Hle). intros [= <-].
      change (cycles (emit RequestAnimationFrame st)) with (cycles st). lia.
  - rewrite start_first by done. intros [= <-]. cbn [steps_due].
    change (cycles (emit RequestAnimationFrame (set_startTime (Some t) st)))
      with (cycles st). lia.
Qed.

(** X11. Every callback that is due steps the grid: after any sequence of
    callbacks that return, the canvas has been cleared (once per cycle) at
    least as many times more as the number of timestamps, fractional or
    not, for which the binary64 test [timestamp - startTime > stepInMs]
    holds against the step before; the surplus is the cycles that reseeds
    run. *)
Theorem frames_cycles (fuel : nat) (ts : list float) (st st' : state) :
  refs_ok st -> frames fuel ts st = Ok st' ->
  Z.of_nat (cycles st) + steps_due (startTime st) ts <= Z.of_nat (cycles st').
Proof.
  revert st. induction ts as [| t ts IH]; intros st Hok; cbn [frames].
  - intros [= <-]. cbn. lia.
  - destruct (start fuel t st) as [s | |] eqn:Hstart; cbn [mbind res_bind]; [| done | done].
    intros Hrun.
    pose proof (start_cycles fuel t st s Hok Hstart) as Hc.
    destruct (start_drawCount fuel t st s Hok Hstart) as (_ & Hs).
    pose proof (IH s (start_refs_ok fuel t st s Hok Hstart) Hrun) as Hrest.
    rewrite Hs in Hrest. cbn [steps_due] in Hc |- *.
    destruct (startTime st) as [t0 |]; [| lia].
    destruct (due t0 t); lia.
Qed.

(** ** [updateCell] outside the grid *)

(** X13. [updateCell] returns 0 before it reads the cell whenever the count
    is not 2 or 3. So for an [x] that has no column it raises exactly when
    the count is 2 or 3; and where the column exists but has no element at
    [y], the read gives [undefined], which is not [== 0], and with a count of
    2 or 3 the result is [undefined]. *)
Theorem updateCell_outside (g : array2) (x y : Z) :
  let n := countNeighbours g x y in
  (n > 3 \/ n < 2 -> updateCell g x y = Ok (VNum 0)) /\
  (column_at g x = None -> 2 <= n <= 3 -> updateCell g x y = Throw) /\
  (forall c, column_at g x = Some c -> ~ (0 <= y < Z.of_nat (length c)) ->
     2 <= n <= 3 -> updateCell g x y = Ok VUndef).
Proof.
  intros n. unfold updateCell. fold n.
  split; [| split].
  - intros Hout. destruct (Z.gtb_spec n 3), (Z.ltb_spec n 2); cbn; try done; lia.
  - intros Hnone Hmid. destruct (cellValue_no_column g x y Hnone) as [-> _].
    destruct (Z.gtb_spec n 3), (Z.ltb_spec n 2); cbn; try done; lia.
  - intros c Hc Hy Hmid. destruct (cellValue_column g x y c Hc) as [-> _].
    assert (lookupZ y c = None) as ->.
    { destruct (Z.ltb_spec y 0); [by apply lookupZ_neg | apply lookupZ_ge; lia]. }
    destruct (Z.gtb_spec n 3), (Z.ltb_spec n 2); cbn; try done; lia.
Qed.

End Game.

(** * Runs of the program *)

(** ** C1 and C2: the two arrays become one *)

(** C1 (the code departs from it). The script on a 12 x 12 canvas, seeded
    with a line of three: the [update] that [populateGrid] calls turns the
    line synchronously; after it [grid] and [tempGrid] are the same array,
    and the step of the frame at 501 ms, done in place, gives a grid that is
    not the synchronous image of the grid it started from: cell (0, 2) is
    born from the cell (0, 1) written just before it. *)
Theorem frame_step_not_synchronous :
  exists s1 s2 g1 g2,
    (st ← boot 12 12 (oracle blinker) 1; start 12 12 (oracle blinker) 1 0%float st) = Ok s1 /\
    start 12 12 (oracle blinker) 1 501%float s1 = Ok s2 /\
    grid s1 = tempGrid s1 /\
    heap s1 !! grid s1 = Some g1 /\
    g1 = [Some [VNum 0; VNum 0; VNum 0]; Some [VNum 1; VNum 1; VNum 1];
          Some [VNum 0; VNum 0; VNum 0]] /\
    cycles s2 = S (cycles s1) /\
    heap s2 !! grid s2 = Some g2 /\
    g2 = [Some [VNum 0; VNum 1; VNum 1]; Some [VNum 1; VNum 0; VNum 1];
          Some [VNum 0; VNum 0; VNum 0]] /\
    spec_step 12 12 g1 = [Some [VNum 0; VNum 1; VNum 0]; Some [VNum 0; VNum 1; VNum 0];
                          Some [VNum 0; VNum 1; VNum 0]] /\
    get2 g2 0 2 = Ok (VNum 1) /\
    get2 (spec_step 12 12 g1) 0 2 = Ok (VNum 0).
Proof.
  do 4 eexists.
  split; [vm_compute; reflexivity |].
  split; [vm_compute; reflexivity |].
  split; [reflexivity |].
  split; [vm_compute; reflexivity |].
  split; [reflexivity |].
  split; [vm_compute; reflexivity |].
  split; [vm_compute; reflexivity |].
  split; [reflexivity |].
  split; [vm_compute; reflexivity |].
  split; vm_compute; reflexivity.
Qed.

(** C2 (the code departs from it). The script on an 8 x 8 canvas, every
    cell seeded live: [populateGrid] makes two distinct arrays, and when its
    [update] has returned both variables hold the array that was
    [tempGrid]; the array that was [grid] is held by neither. So it stays
    after every frame. *)
Theorem grid_and_tempGrid_aliased :
  exists s0 s1 s2,
    seed 8 8 (oracle block) initial = Ok s0 /\ grid s0 <> tempGrid s0 /\
    boot 8 8 (oracle block) 1 = Ok s1 /\
    grid s1 = tempGrid s0 /\ tempGrid s1 = tempGrid s0 /\
    frames 8 8 (oracle block) 1 [0; 501; 1002]%float s1 = Ok s2 /\
    grid s2 = tempGrid s2 /\ cycles s2 = 3%nat.
Proof.
  do 3 eexists.
  split; [vm_compute; reflexivity |].
  split; [vm_compute; discriminate |].
  split; [vm_compute; reflexivity |].
  split; [reflexivity |]. split; [reflexivity |].
  split; [vm_compute; reflexivity |].
  split; reflexivity.
Qed.

(** ** Examples of the theorems *)

#[local] Set Warnings "-inexact-float".

Lemma rect_corner_grid : rect 12 12 corner_grid.
Proof. apply rectb_sound. reflexivity. Qed.

Lemma binary_corner_grid : binary 12 12 corner_grid.
Proof. apply binaryb_sound; [apply rect_corner_grid | reflexivity]. Qed.

Lemma refs_ok_corner_state : refs_ok 12 12 corner_state.
Proof.
  exists corner_grid, (zeros 12 12).
  split; [reflexivity |]. split; [apply rect_corner_grid |].
  split; [reflexivity | apply rect_zeros].
Qed.

(** All 18 rows of the rule table, each on a grid that realises it. *)
Lemma updateCell_all_cases :
  forallb (fun s =>
    forallb (fun n =>
      match updateCell (ring s n) 1 1 with
      | Ok (VNum v) =>
          (v =? transition s (Z.of_nat n)) &&
          (countNeighbours (ring s n) 1 1 =? Z.of_nat n)
      | _ => false
      end) (seq 0 9)) [0; 1] = true.
Proof. vm_compute. reflexivity. Qed.

(** The dead cell (1, 1) of [corner_grid] has three live neighbours and is
    born. *)
Lemma updateCell_rule_witness :
  rect 12 12 corner_grid /\ binary 12 12 corner_grid /\ in_grid 12 12 1 1 = true /\
  alive 12 12 corner_grid 1 1 = 0 /\ countNeighbours corner_grid 1 1 = 3 /\
  updateCell corner_grid 1 1 = Ok (VNum 1).
Proof.
  split; [apply rect_corner_grid |]. split; [apply binary_corner_grid |].
  split; [reflexivity |]. split; [reflexivity |]. split; [reflexivity |].
  destruct (updateCell_rule 12 12 corner_grid 1 1 rect_corner_grid binary_corner_grid
              eq_refl) as (_ & _ & _ & Hborn & _).
  apply Hborn; reflexivity.
Defined.

(** The corner (0, 0) of [corner_grid]: five of its eight offsets fall
    outside the grid. *)
Lemma countNeighbours_sum_witness :
  rect 12 12 corner_grid /\ binary 12 12 corner_grid /\
  countNeighbours corner_grid 0 0 = neighborCount 12 12 corner_grid 0 0 /\
  neighborCount 12 12 corner_grid 0 0 = 2 /\
  0 <= countNeighbours corner_grid 0 0 <= 8.
Proof.
  split; [apply rect_corner_grid |]. split; [apply binary_corner_grid |].
  destruct (countNeighbours_sum 12 12 corner_grid 0 0 rect_corner_grid binary_corner_grid)
    as (Hsum & _ & Hbounds).
  split; [exact Hsum |]. split; [reflexivity | exact Hbounds].
Defined.

(** Three steps from a dead grid, the first into a [tempGrid] that is
    another array with live cells in it, the others in place. *)
Lemma dead_grid_stays_dead_witness :
  heap dead_state !! grid dead_state = Some (zeros 12 12) /\
  heap dead_state !! tempGrid dead_state = Some corner_grid /\
  rect 12 12 corner_grid /\
  exists st', steps 12 12 3 dead_state = Ok st' /\
              heap st' !! grid st' = Some (zeros 12 12).
Proof.
  split; [reflexivity |]. split; [reflexivity |]. split; [apply rect_corner_grid |].
  apply (dead_grid_stays_dead 12 12 3 dead_state corner_grid);
    [reflexivity | reflexivity | apply rect_corner_grid].
Defined.

(** One call of [update] on [corner_state]: four cells live after the step,
    more than a tenth of 9, and the monitor does not fire. *)
Lemma monitor_reseeds_witness :
  0 <= 12 /\ refs_ok 12 12 corner_state /\
  exists g1 st1,
    cycle 12 12 corner_state = Ok (live g1, st1) /\
    heap st1 !! grid st1 = Some g1 /\
    (collapsed 12 12 (live g1) = true <-> size * size * 10 * live g1 < 12 * 12) /\
    (collapsed 12 12 (live g1) = false ->
       update 12 12 (oracle []) 1 corner_state = Ok st1).
Proof.
  split; [lia |]. split; [apply refs_ok_corner_state |].
  destruct (monitor_reseeds 12 12 (oracle []) 0 corner_state)
    as (h1 & g1 & tr & _ & Hg1 & Hcyc & Hiff & _ & Hno & _);
    [lia | lia | apply refs_ok_corner_state |].
  exists g1. eexists. split; [exact Hcyc |]. split; [exact Hg1 |].
  split; [exact Hiff | exact Hno].
Defined.

(** Timestamps as a browser passes them: [start(16.667)] is the first
    callback on [corner_state] and sets the clock; [start(516.9)] comes
    500.233 ms later and steps, where the same timestamps cut or rounded to
    integers (16 and 516, 17 and 517) are 500 apart and would not. *)
Lemma start_spec_witness :
  refs_ok 12 12 corner_state /\
  start 12 12 (oracle []) 1 16.667 corner_state
  = Ok (emit RequestAnimationFrame (set_startTime (Some 16.667%float) corner_state)) /\
  due 16.667 516.9 = true /\ due 16 516 = false /\ due 17 517 = false /\
  exists cnt st1,
    cycle 12 12 (stamped 516.9 (516.9 - 16.667)
                   (set_startTime (Some 16.667%float) corner_state))
    = Ok (cnt, st1) /\
    cycles st1 = S (cycles (set_startTime (Some 16.667%float) corner_state)) /\
    startTime st1 = Some 516.9%float.
Proof.
  split; [apply refs_ok_corner_state |].
  split.
  - destruct (start_spec 12 12 (oracle []) 1 16.667 corner_state refs_ok_corner_state)
      as (Hfirst & _).
    apply Hfirst. reflexivity.
  - split; [reflexivity |]. split; [reflexivity |]. split; [reflexivity |].
    destruct (start_spec 12 12 (oracle []) 1 516.9
                (set_startTime (Some 16.667%float) corner_state)
                refs_ok_corner_state) as (_ & _ & Hdue).
    destruct (Hdue 16.667%float eq_refl) as (cnt & st1 & Hcyc & Hc & Hs & _);
      [reflexivity |].
    exists cnt, st1. split; [exact Hcyc |]. split; [exact Hc | exact Hs].
Defined.

(** The difference is the rounded one. The doubles nearest to 0.1 and 500.1
    are [7205759403792794 * 2^-56] and [8797852240812442 * 2^-44], more than
    500 apart; their binary64 difference is 500 and [start(500.1)] after
    [start(0.1)] does not step. *)
Lemma progress_is_rounded :
  Prim2SF 0.1 = S754_finite false 7205759403792794 (-56) /\
  Prim2SF 500.1 = S754_finite false 8797852240812442 (-44) /\
  (500 < 8797852240812442 / 2 ^ 44 - 7205759403792794 / 2 ^ 56)%Q /\
  (500.1 - 0.1 = 500)%float /\ due 0.1 500.1 = false /\
  exists s1,
    start 12 12 (oracle []) 1 0.1 corner_state = Ok s1 /\
    start 12 12 (oracle []) 1 500.1 s1 = Ok (emit RequestAnimationFrame s1).
Proof.
  split; [reflexivity |]. split; [reflexivity |]. split; [reflexivity |].
  split; [reflexivity |]. split; [reflexivity |].
  eexists. split; reflexivity.
Qed.

(** ** Runs that the claims as stated do not allow *)

(** C5 as stated fails. On a 43 x 4 canvas (a grid of 11 x 1 cells, 10 x 1
    with the quotients rounded down) the first step leaves 1 live cell:
    1 / (10 * 1) is not below 0.10, and the reseed fires (11 more random
    numbers are drawn and [update] runs again). On a 41 x 41 canvas (a grid
    of 11 x 11 cells) the first step leaves 11 live cells: 11 / (11 * 11) is
    below 0.10, and the reseed does not fire. *)
Lemma reseed_not_by_cell_fraction :
  (exists s0 s1 s2,
     seed 43 4 (oracle line_then_full) initial = Ok s0 /\
     cycle 43 4 s0 = Ok (1, s1) /\ live (deref (heap s1) (grid s1)) = 1 /\
     floor_cols 43 = 10 /\ floor_rows 4 = 1 /\
     (10 * 1 <? floor_cols 43 * floor_rows 4) = false /\
     collapsed 43 4 1 = true /\
     update 43 4 (oracle line_then_full) 2 s0 = Ok s2 /\
     randoms s0 = 11%nat /\ randoms s2 = 22%nat /\ cycles s2 = 2%nat /\
     grid s2 <> grid s1) /\
  (exists t0 t1,
     seed 41 41 (oracle garden) initial = Ok t0 /\
     cycle 41 41 t0 = Ok (11, t1) /\ live (deref (heap t1) (grid t1)) = 11 /\
     cols 41 = 11 /\ rows 41 = 11 /\
     (10 * 11 <? cols 41 * rows 41) = true /\
     collapsed 41 41 11 = false /\
     update 41 41 (oracle garden) 1 t0 = Ok t1 /\
     randoms t1 = 121%nat /\ cycles t1 = 1%nat).
Proof.
  split.
  - do 3 eexists.
    split; [vm_compute; reflexivity |].
    split; [vm_compute; reflexivity |].
    split; [vm_compute; reflexivity |].
    split; [reflexivity |]. split; [reflexivity |]. split; [reflexivity |].
    split; [reflexivity |].
    split; [vm_compute; reflexivity |].
    split; [reflexivity |]. split; [reflexivity |]. split; [reflexivity |].
    vm_compute. discriminate.
  - do 2 eexists.
    split; [vm_compute; reflexivity |].
    split; [vm_compute; reflexivity |].
    split; [vm_compute; reflexivity |].
    split; [reflexivity |]. split; [reflexivity |]. split; [reflexivity |].
    split; [reflexivity |].
    split; [vm_compute; reflexivity |].
    split; reflexivity.
Qed.

(** C6 as stated fails. On a 12 x 12 canvas seeded with a diagonal, the
    [update] of [populateGrid] leaves the centre cell; the frame at 501 ms
    steps it to a dead grid, the monitor fires, and that one callback runs
    two cycles: its own and the one [populateGrid] starts. *)
Lemma frame_runs_two_cycles :
  exists s1 s2,
    (st ← boot 12 12 (oracle diagonal_then_block) 1;
     start 12 12 (oracle diagonal_then_block) 1 0%float st) = Ok s1 /\
    startTime s1 = Some 0%float /\
    start 12 12 (oracle diagonal_then_block) 2 501%float s1 = Ok s2 /\
    cycles s2 = (cycles s1 + 2)%nat /\
    randoms s2 = (randoms s1 + 9)%nat /\
    startTime s2 = Some 501%float.
Proof.
  do 2 eexists.
  split; [vm_compute; reflexivity |]. split; [reflexivity |].
  split; [vm_compute; reflexivity |].
  split; [reflexivity |]. split; reflexivity.
Qed.

(** C7 as stated fails. On a 5 x 4 canvas the quotients rounded down give a
    grid of 1 x 1, and the loops create, seed and step the two columns
    [x = 0] and [x = 1]. *)
Lemma loops_beyond_floor :
  floor_cols 5 = 1 /\ floor_rows 4 = 1 /\ cols 5 = 2 /\ rows 4 = 1 /\
  initArray (qwidth 5) (qheight 4) = Ok [Some [VNum 0]; Some [VNum 0]] /\
  exists s0 s1,
    seed 5 4 (oracle [true; true]) initial = Ok s0 /\
    deref (heap s0) (grid s0) = [Some [VNum 1]; Some [VNum 1]] /\
    randoms s0 = 2%nat /\
    cycle 5 4 s0 = Ok (0, s1) /\
    deref (heap s1) (grid s1) = [Some [VNum 0]; Some [VNum 0]].
Proof.
  split; [reflexivity |]. split; [reflexivity |]. split; [reflexivity |].
  split; [reflexivity |]. split; [vm_compute; reflexivity |].
  do 2 eexists.
  split; [vm_compute; reflexivity |]. split; [vm_compute; reflexivity |].
  split; [reflexivity |]. split; vm_compute; reflexivity.
Qed.

(** ** Examples of the further properties *)

(** [drawCells] on [corner_state]: three squares for three live cells. *)
Lemma drawCells_draws_live_cells_witness :
  heap corner_state !! grid corner_state = Some corner_grid /\
  rect 12 12 corner_grid /\
  drawCells 12 12 corner_state
  = Ok (live corner_grid, log (rev (drawn 12 12 corner_grid)) corner_state) /\
  drawn 12 12 corner_grid
  = [FillRect (Rgb 0 0 100) 0 0 4 4; FillRect (Rgb 0 1 100) 0 4 4 4;
     FillRect (Rgb 1 0 100) 4 0 4 4] /\
  live corner_grid = 3.
Proof.
  split; [reflexivity |]. split; [apply rect_corner_grid |].
  destruct (drawCells_draws_live_cells 12 12 corner_state corner_grid eq_refl
              rect_corner_grid) as (Hrun & _ & _).
  split; [exact Hrun |]. split; reflexivity.
Defined.

(** The script on a 12 x 12 canvas seeded with a line of three, after the
    frames at 0 and 501 ms. *)
Lemma reachable_grid_well_formed_witness :
  exists st0 st,
    boot 12 12 (oracle blinker) 1 = Ok st0 /\
    frames 12 12 (oracle blinker) 1 [0; 501]%float st0 = Ok st /\
    exists g, heap st !! grid st = Some g /\ length g = Z.to_nat (cols 12) /\
              (get2 g 0 2 = Ok (VNum 0) \/ get2 g 0 2 = Ok (VNum 1)).
Proof.
  do 2 eexists. split; [vm_compute; reflexivity |].
  split; [vm_compute; reflexivity |].
  edestruct (reachable_grid_well_formed 12 12 (oracle blinker) 1 [0; 501]%float)
    as (g & Hg & Hlen & _ & Hcells);
    [vm_compute; reflexivity | vm_compute; reflexivity |].
  exists g. split; [exact Hg |]. split; [exact Hlen |].
  apply Hcells; vm_compute; split; discriminate || reflexivity.
Defined.

(** Three callbacks on [corner_state] within half a second, without fuel:
    the first, at 16.667 ms, sets the clock; those at 216.9 and 516.5 ms
    come 200.233 and 499.833 ms after it and do nothing. *)
Lemma frames_within_interval_witness :
  Forall (fun t' => due 16.667 t' = false) [216.9; 516.5]%float /\
  frames 12 12 (oracle []) 0 [16.667; 216.9; 516.5]%float corner_state
  = Ok (log (replicate 3 RequestAnimationFrame)
          (set_startTime (Some 16.667%float) corner_state)).
Proof.
  assert (Hall : Forall (fun t' => due 16.667 t' = false) [216.9; 516.5]%float)
    by (repeat constructor).
  split; [exact Hall |].
  destruct (frames_within_interval 12 12 (oracle []) 0 [216.9; 516.5]%float corner_state)
    as [_ Hfirst].
  exact (Hfirst 16.667%float eq_refl Hall).
Defined.

(** Four callbacks on [corner_state]: the first, at 16.667 ms, sets the
    clock, those at 516.9 and at 1100.5 ms step, the one at 600.25 ms does
    not. *)
Lemma frames_drawCount_witness :
  refs_ok 12 12 corner_state /\
  steps_due (startTime corner_state) [16.667; 516.9; 600.25; 1100.5]%float = 2 /\
  exists st',
    frames 12 12 (oracle []) 1 [16.667; 516.9; 600.25; 1100.5]%float corner_state = Ok st' /\
    drawCount st' = drawCount corner_state + 2.
Proof.
  split; [apply refs_ok_corner_state |]. split; [reflexivity |].
  eexists. split; [vm_compute; reflexivity |].
  apply (frames_drawCount 12 12 (oracle []) 1 [16.667; 516.9; 600.25; 1100.5]%float corner_state);
    [apply refs_ok_corner_state | vm_compute; reflexivity].
Defined.

Lemma frames_cycles_witness :
  refs_ok 12 12 corner_state /\
  exists st',
    frames 12 12 (oracle []) 1 [16.667; 516.9; 600.25; 1100.5]%float corner_state = Ok st' /\
    Z.of_nat (cycles corner_state) + 2 <= Z.of_nat (cycles st').
Proof.
  split; [apply refs_ok_corner_state |].
  eexists. split; [vm_compute; reflexivity |].
  apply (frames_cycles 12 12 (oracle []) 1 [16.667; 516.9; 600.25; 1100.5]%float corner_state);
    [apply refs_ok_corner_state | vm_compute; reflexivity].
Defined.

(** A canvas of 4 x 4 pixels: one cell. *)
Lemma tiny_canvas_never_settles_witness :
  0 < 4 /\ ((4 <= 4 /\ 4 <= 8) \/ (4 <= 8 /\ 4 <= 4)) /\
  populateGrid 4 4 (oracle [true]) 5 initial = NoFuel /\
  boot 4 4 (oracle [true]) 5 = NoFuel.
Proof.
  split; [lia |]. split; [lia |].
  destruct (tiny_canvas_never_settles 4 4 (oracle [true]) 5 initial) as (Hpop & Hboot & _);
    [lia | lia | lia |].
  split; [exact Hpop | exact Hboot].
Defined.

(** A canvas of width 0. *)
Lemma no_area_no_reseed_witness :
  0 * 12 = 0 /\
  collapsed 0 12 0 = false /\
  exists st', populateGrid 0 12 (oracle []) 1 initial = Ok st' /\
              cycles st' = 1%nat /\ randoms st' = 0%nat.
Proof.
  split; [reflexivity |].
  destruct (no_area_no_reseed 0 12 (oracle []) 0 initial eq_refl) as (Hno & st' & H1 & H2 & H3).
  split; [apply Hno |]. exists st'. split; [exact H1 |]. split; [exact H2 | exact H3].
Defined.

(** Giving life to the cell (1, 1) of [corner_grid] does not change its own
    neighbour count; giving life to the cell (2, 2) raises it from 3 to 4;
    so does a write at (2, 3), which lengthens the column. *)
Lemma countNeighbours_local_witness :
  countNeighbours corner_grid 1 1 = 3 /\
  (exists g', set2 corner_grid 1 1 (VNum 1) = Ok g' /\
              cellValue g' 1 1 = VNum 1 /\ countNeighbours g' 1 1 = 3) /\
  (exists g', set2 corner_grid 2 2 (VNum 1) = Ok g' /\ countNeighbours g' 1 1 = 4) /\
  (exists g', set2 corner_grid 2 3 (VNum 1) = Ok g' /\
              g' = [Some [VNum 1; VNum 1; VNum 0]; Some [VNum 1; VNum 0; VNum 0];
                    Some [VNum 0; VNum 0; VNum 0; VNum 1]] /\
              countNeighbours g' 1 2 = 2 /\ countNeighbours g' 1 1 = 3).
Proof.
  split; [reflexivity |].
  split; [| split].
  - eexists. split; [reflexivity |]. split; [reflexivity |].
    rewrite (countNeighbours_local corner_grid _ 1 1 1 1 (VNum 1)); [| lia | reflexivity].
    reflexivity.
  - eexists. split; [reflexivity |].
    rewrite (countNeighbours_local corner_grid _ 2 2 1 1 (VNum 1)); [| lia | reflexivity].
    reflexivity.
  - eexists. split; [reflexivity |]. split; [reflexivity |].
    split; reflexivity.
Defined.
